(** * pdf_converter_app.py: the text-to-record pipeline of the payroll converter

    A shallow embedding of [processar_pdf_para_streamlit]
    (src/pdf_converter_app.py, lines 10-113) and of the library functions it
    calls: [str.strip], [in], [str.startswith], [str.replace], [str.split],
    [re.compile(...).match] with its groups, and [float].

    Python text is a sequence of code points.  Here a character is one of
    Rocq's 256 [ascii] values, read as the code point of the same number
    (U+0000 to U+00FF), and a [str] is a list of them.  The character classes
    below are Python's, restricted to that range. *)

From Stdlib Require Import Ascii String List Bool Arith ZArith NArith Lia.
From Stdlib Require Import Floats.SpecFloat.
From Stdlib Require DecimalString.
Import ListNotations.

Local Open Scope list_scope.

(* ================================================================== *)
(** ** Python strings *)

Definition str := list ascii.

(** A Rocq literal holds the UTF-8 bytes of its text; [py] reads the two-byte
    sequences for U+0080 to U+00FF back into one character, so that
    [py "..."] is the Python literal with the same text. *)
Fixpoint latin1_of_utf8 (bs : list ascii) : str :=
  match bs with
  | [] => []
  | b :: bs' =>
      match b, bs' with
      | Ascii false true false false false false true true, c :: bs'' =>
          (* 0xC2 0x80-0xBF: U+0080 to U+00BF *)
          c :: latin1_of_utf8 bs''
      | Ascii true true false false false false true true,
        Ascii b0 b1 b2 b3 b4 b5 _ _ :: bs'' =>
          (* 0xC3 0x80-0xBF: U+00C0 to U+00FF *)
          Ascii b0 b1 b2 b3 b4 b5 true true :: latin1_of_utf8 bs''
      | _, _ => b :: latin1_of_utf8 bs'
      end
  end.

Definition py (s : string) : str := latin1_of_utf8 (list_ascii_of_string s).

(** [str.isspace] on one character ([Py_UNICODE_ISSPACE]): TAB, LF, VT, FF,
    CR, FS, GS, RS, US, SPACE, NEL (U+0085) and NBSP (U+00A0).  The same test
    is behind [str.strip] and the regular expression class [\s]. *)
Definition isspace (c : ascii) : bool :=
  let n := N_of_ascii c in
  (((9 <=? n) && (n <=? 13)) || ((28 <=? n) && (n <=? 32))
   || (n =? 133) || (n =? 160))%N.

(** [Py_UNICODE_ISDECIMAL], behind [\d] and [float]: below U+0100 only the
    digits 0 to 9 are decimal. *)
Definition isdecimal (c : ascii) : bool :=
  let n := N_of_ascii c in ((48 <=? n) && (n <=? 57))%N.

Fixpoint lstrip (s : str) : str :=
  match s with
  | c :: s' => if isspace c then lstrip s' else s
  | [] => []
  end.

Definition rstrip (s : str) : str := List.rev (lstrip (List.rev s)).

(** [s.strip()] *)
Definition strip (s : str) : str := rstrip (lstrip s).

(** [s.startswith(p)] *)
Fixpoint startswith (s p : str) : bool :=
  match p, s with
  | [], _ => true
  | a :: p', b :: s' => Ascii.eqb a b && startswith s' p'
  | _ :: _, [] => false
  end.

(** [sub in s] *)
Fixpoint contains (sub s : str) : bool :=
  startswith s sub ||
  match s with
  | [] => false
  | _ :: s' => contains sub s'
  end.

(** [s.replace(old, new)] for a one-character [old], as both calls of the
    source have it. *)
Fixpoint replace (old : ascii) (new : str) (s : str) : str :=
  match s with
  | [] => []
  | c :: s' =>
      if Ascii.eqb c old then new ++ replace old new s'
      else c :: replace old new s'
  end.

(** [s.split(sep)] for a one-character [sep]. *)
Fixpoint split (sep : ascii) (s : str) : list str :=
  match s with
  | [] => [[]]
  | c :: s' =>
      if Ascii.eqb c sep then [] :: split sep s'
      else match split sep s' with
           | h :: t => (c :: h) :: t
           | [] => [[c]]
           end
  end.

(** [str(n)] for a non-negative integer, as an f-string renders it. *)
Definition str_of_nat (n : nat) : str :=
  list_ascii_of_string (DecimalString.NilEmpty.string_of_uint (Nat.to_uint n)).

(* ================================================================== *)
(** ** Regular expressions: the fragment [data_pattern] is written in *)

Module Re.

Inductive charclass : Type :=
  | Space            (* \s *)
  | NotSpace         (* \S *)
  | Digit            (* \d *)
  | Dot              (* .   any character but a newline *)
  | Lit (c : ascii). (* \. and , *)

Definition in_class (k : charclass) (c : ascii) : bool :=
  match k with
  | Space => isspace c
  | NotSpace => negb (isspace c)
  | Digit => isdecimal c
  | Dot => negb (Ascii.eqb c "010"%char)
  | Lit a => Ascii.eqb c a
  end.

(** [Repeat greedy lo hi r] is [r{lo,hi}] ([hi = None]: unbounded), lazy when
    [greedy] is false; [Group i r] is the capturing group number [i]. *)
Inductive regex : Type :=
  | Class (k : charclass)
  | Seq (r1 r2 : regex)
  | Repeat (greedy : bool) (lo : nat) (hi : option nat) (r : regex)
  | Group (i : nat) (r : regex)
  | Bol              (* ^ *)
  | Eol.             (* $ *)

(** The groups captured so far, latest first. *)
Definition captures := list (nat * str).

Fixpoint group (i : nat) (cs : captures) : option str :=
  match cs with
  | [] => None
  | (j, w) :: cs' => if Nat.eqb i j then Some w else group i cs'
  end.

(** How many optional iterations a repeat may still try: each one has to
    consume a character, so no more than the characters left. *)
Definition budget (lo : nat) (hi : option nat) (rest : str) : nat :=
  match hi with
  | None => length rest
  | Some h => Nat.min (h - lo) (length rest)
  end.

(** What is left of a pattern, and one pattern run before it. *)
Definition cont : Type := str -> captures -> option captures.
Definition runner : Type := str -> captures -> cont -> option captures.

(** The [lo] iterations a repeat has to make. *)
Fixpoint mandatory (body : runner) (after : cont) (n : nat)
         (rest : str) (cs : captures) {struct n} : option captures :=
  match n with
  | O => after rest cs
  | S n' => body rest cs (fun rest' cs' => mandatory body after n' rest' cs')
  end.

(** The iterations a repeat may make, at most [b] of them.  A greedy repeat
    tries one more iteration before it tries the continuation [k], a lazy
    one the other way round; the first success wins. *)
Fixpoint optional (body : runner) (greedy : bool) (k : cont) (b : nat)
         (rest : str) (cs : captures) {struct b} : option captures :=
  match b with
  | O => k rest cs
  | S b' =>
      let again :=
        body rest cs
          (fun rest' cs' =>
             if length rest' <? length rest
             then optional body greedy k b' rest' cs' else None) in
      if greedy then
        match again with
        | Some res => Some res
        | None => k rest cs
        end
      else
        match k rest cs with
        | Some res => Some res
        | None => again
        end
  end.

Section Matcher.

(** The subject string; the matcher walks its suffixes. *)
Variable subject : str.

(** The backtracking matcher, in continuation-passing style, with the
    priorities of [sre]: [k] is what remains of the pattern. *)
Fixpoint run (r : regex) (rest : str) (cs : captures) (k : cont) {struct r}
  : option captures :=
  match r with
  | Class c =>
      match rest with
      | x :: rest' => if in_class c x then k rest' cs else None
      | [] => None
      end
  | Seq r1 r2 => run r1 rest cs (fun rest' cs' => run r2 rest' cs' k)
  | Group i r1 =>
      run r1 rest cs
        (fun rest' cs' =>
           k rest' ((i, firstn (length rest - length rest') rest) :: cs'))
  | Bol => if Nat.eqb (length rest) (length subject) then k rest cs else None
  | Eol =>
      match rest with
      | [] => k rest cs
      | [c] => if Ascii.eqb c "010"%char then k rest cs else None
      | _ => None
      end
  | Repeat greedy lo hi r1 =>
      mandatory (run r1)
        (fun rest' cs' =>
           optional (run r1) greedy k (budget lo hi rest') rest' cs')
        lo rest cs
  end.

End Matcher.

(** [pattern.match(s)]: the pattern is tried at position 0 only. *)
Definition match_ (r : regex) (s : str) : option captures :=
  run s r s [] (fun _ cs => Some cs).

End Re.

(* ================================================================== *)
(** ** [float]: text to binary64 *)

Module PyFloat.

Local Open Scope Z_scope.

(** Round-half-even of [num / den], for [0 <= num] and [0 < den]. *)
Definition div_half_even (num den : Z) : Z :=
  let q := num / den in
  match 2 * (num mod den) ?= den with
  | Lt => q
  | Gt => q + 1
  | Eq => if Z.even q then q else q + 1
  end.

(** [p / (q * 2^e)] as a fraction of integers. *)
Definition scale (p q e : Z) : Z * Z :=
  (p * 2 ^ Z.max 0 (- e), q * 2 ^ Z.max 0 e).

(** The exponent that leaves 53 bits before the binary point of
    [p / (q * 2^e)], and no less than the smallest one of binary64. *)
Definition exponent_of (p q : Z) : Z :=
  let e1 := Z.log2 p - Z.log2 q - 53 in
  let '(n, d) := scale p q e1 in
  Z.max (-1074) (if n / d <? 2 ^ 53 then e1 else e1 + 1).

(** The binary64 number nearest to [p / q] (ties to even), for [0 <= p] and
    [0 < q]: what a correctly rounded conversion returns. *)
Definition of_ratio (neg : bool) (p q : Z) : spec_float :=
  if p <=? 0 then S754_zero neg
  else
    let e := exponent_of p q in
    let '(n, d) := scale p q e in
    let m := div_half_even n d in
    let '(m, e) := if m =? 2 ^ 53 then (2 ^ 52, e + 1) else (m, e) in
    if 971 <? e then S754_infinity neg
    else match m with
         | Zpos m' => S754_finite neg m' e
         | _ => S754_zero neg
         end.

(** [m * 10^e] rounded to binary64. *)
Definition of_decimal (neg : bool) (m e : Z) : spec_float :=
  if 0 <=? e then of_ratio neg (m * 10 ^ e) 1
  else of_ratio neg m (10 ^ (- e)).

Definition digit_value (c : ascii) : Z := Z.of_N (N_of_ascii c) - 48.

Definition digits_value (ds : str) : Z :=
  fold_left (fun a c => 10 * a + digit_value c) ds 0.

(** [(["_"] digit)*]: the digits read and what follows them. *)
Fixpoint digitpart_rest (s : str) : str * str :=
  match s with
  | c :: s' =>
      if isdecimal c then
        let '(ds, r) := digitpart_rest s' in (c :: ds, r)
      else if Ascii.eqb c "_"%char then
        match s' with
        | d :: s'' =>
            if isdecimal d then
              let '(ds, r) := digitpart_rest s'' in (d :: ds, r)
            else ([], s)
        | [] => ([], s)
        end
      else ([], s)
  | [] => ([], s)
  end.

(** [digitpart ::= digit (["_"] digit)*] *)
Definition digitpart (s : str) : option (str * str) :=
  match s with
  | c :: s' =>
      if isdecimal c then
        let '(ds, r) := digitpart_rest s' in Some (c :: ds, r)
      else None
  | [] => None
  end.

(** [[sign]] *)
Definition sign (s : str) : bool * str :=
  match s with
  | c :: s' =>
      if Ascii.eqb c "-"%char then (true, s')
      else if Ascii.eqb c "+"%char then (false, s')
      else (false, s)
  | [] => (false, s)
  end.

(** [number ::= [digitpart] "." digitpart | digitpart ["."]]: the digits of
    the integer part, those of the fraction, and what follows. *)
Definition number (s : str) : option (str * str * str) :=
  match digitpart s with
  | Some (i, r) =>
      match r with
      | c :: r' =>
          if Ascii.eqb c "."%char then
            match digitpart r' with
            | Some (f, r'') => Some (i, f, r'')
            | None => Some (i, [], r')
            end
          else Some (i, [], r)
      | [] => Some (i, [], r)
      end
  | None =>
      match s with
      | c :: r' =>
          if Ascii.eqb c "."%char then
            match digitpart r' with
            | Some (f, r'') => Some ([], f, r'')
            | None => None
            end
          else None
      | [] => None
      end
  end.

(** [[("e" | "E") [sign] digitpart]], which has to end the text. *)
Definition exponent (s : str) : option Z :=
  match s with
  | [] => Some 0
  | c :: s' =>
      if Ascii.eqb c "e"%char || Ascii.eqb c "E"%char then
        let '(neg, s'') := sign s' in
        match digitpart s'' with
        | Some (ds, []) => Some (if neg then - digits_value ds else digits_value ds)
        | _ => None
        end
      else None
  end.

Definition lower (c : ascii) : ascii :=
  let n := N_of_ascii c in
  if ((65 <=? n) && (n <=? 90))%N then ascii_of_N (n + 32) else c.

Fixpoint eqb_str (a b : str) : bool :=
  match a, b with
  | [], [] => true
  | x :: a', y :: b' => Ascii.eqb x y && eqb_str a' b'
  | _, _ => false
  end.

(** The blanks [float] drops around its text: TAB, LF, VT, FF, CR and SPACE
    ([Py_ISSPACE]), and the blanks above U+007F, NEL and NBSP, which it first
    turns into spaces.  FS, GS, RS and US (U+001C to U+001F) are blanks for
    [str.strip] but not here: a text that starts or ends with one of them
    is refused. *)
Definition is_blank (c : ascii) : bool :=
  let n := N_of_ascii c in
  (((9 <=? n) && (n <=? 13)) || (n =? 32) || (n =? 133) || (n =? 160))%N.

Fixpoint lstrip_blanks (s : str) : str :=
  match s with
  | c :: s' => if is_blank c then lstrip_blanks s' else s
  | [] => []
  end.

Definition strip_blanks (s : str) : str :=
  List.rev (lstrip_blanks (List.rev (lstrip_blanks s))).

(** [float(s)]: [None] stands for [ValueError].  Blanks around the text are
    dropped; then [[sign] (floatnumber | infinity | nan)] as the language
    reference gives it; the value is the correctly rounded one, and one too
    large is an infinity. *)
Definition float (s : str) : option spec_float :=
  let '(neg, body) := sign (strip_blanks s) in
  let word := map lower body in
  if eqb_str word (py "inf") || eqb_str word (py "infinity")
  then Some (S754_infinity neg)
  else if eqb_str word (py "nan") then Some S754_nan
  else
    match number body with
    | Some (i, f, r) =>
        match exponent r with
        | Some e =>
            Some (of_decimal neg (digits_value (i ++ f))
                    (e - Z.of_nat (length f)))
        | None => None
        end
    | None => None
    end.

End PyFloat.

(* ================================================================== *)
(** ** The function *)

(** [data_pattern]:
    [^(\S+)\s+(.*?)\s+(\d{1,3}(?:\.\d{3})*,\d{2})$] *)
Definition amount_pattern : Re.regex :=
  Re.Seq (Re.Repeat true 1 (Some 3) (Re.Class Re.Digit))
    (Re.Seq
       (Re.Repeat true 0 None
          (Re.Seq (Re.Class (Re.Lit "."%char))
             (Re.Repeat true 3 (Some 3) (Re.Class Re.Digit))))
       (Re.Seq (Re.Class (Re.Lit ","%char))
          (Re.Repeat true 2 (Some 2) (Re.Class Re.Digit)))).

Definition data_pattern : Re.regex :=
  Re.Seq Re.Bol
    (Re.Seq (Re.Group 1 (Re.Repeat true 1 None (Re.Class Re.NotSpace)))
       (Re.Seq (Re.Repeat true 1 None (Re.Class Re.Space))
          (Re.Seq (Re.Group 2 (Re.Repeat false 0 None (Re.Class Re.Dot)))
             (Re.Seq (Re.Repeat true 1 None (Re.Class Re.Space))
                (Re.Seq (Re.Group 3 amount_pattern) Re.Eol))))).

(** [match.group(i)], for a group that took part in the match (all three of
    [data_pattern] do, see [data_pattern_groups]). *)
Definition group (i : nat) (m : Re.captures) : str :=
  match Re.group i m with
  | Some w => w
  | None => []
  end.

(** One element of [extracted_data]:
    [[classificacao, denominacao, valor_float]]. *)
Record row : Type := Row {
  classificacao : str;
  denominacao : str;
  valor_float : spec_float
}.

(** The variables the line loop assigns. *)
Record loop_state : Type := LoopState {
  extracted_data : list row;
  in_data_section : bool;
  info_messages : list str;
  line_number : nat
}.

Definition is_empty (s : str) : bool :=
  match s with [] => true | _ => false end.

(** The structural test of line 57, for a line inside the section. *)
Definition is_noise (cleaned_line : str) : bool :=
  is_empty cleaned_line
  || contains (py "---") cleaned_line
  || startswith cleaned_line (py "***")
  || contains (py "SIAPE, GERENCIAL") cleaned_line
  || startswith cleaned_line (py "DATA:").

Definition is_header (cleaned_line : str) : bool :=
  contains (py "CLSF.CONTABIL") cleaned_line
  && contains (py "DENOMINACAO / RUBRICA") cleaned_line.

Definition msg_section (line_number : nat) : str :=
  py "Info Linha " ++ str_of_nat line_number
  ++ py ": Seção de dados iniciada.".

Definition msg_invalid (line_number : nat) (valor_str cleaned_line : str) : str :=
  py "Aviso Linha " ++ str_of_nat line_number ++ py ": Valor '" ++ valor_str
  ++ py "' inválido na linha: " ++ cleaned_line.

(** Line 66, the amount parser: [float(valor_str.replace('.', '').replace(',', '.'))]. *)
Definition parse_amount (valor_str : str) : option spec_float :=
  PyFloat.float (replace ","%char (py ".") (replace "."%char (py "") valor_str)).

(** Lines 60-69: what the loop does with a line that reached the pattern. *)
Definition extract (st : loop_state) (cleaned_line : str) : loop_state :=
  match Re.match_ data_pattern cleaned_line with
  | Some m =>
      let classificacao := group 1 m in
      let denominacao := strip (group 2 m) in
      let valor_str := group 3 m in
      match parse_amount valor_str with
      | Some valor_float =>
          LoopState
            (extracted_data st ++ [Row classificacao denominacao valor_float])
            (in_data_section st) (info_messages st) (line_number st)
      | None =>
          LoopState (extracted_data st) (in_data_section st)
            (info_messages st
             ++ [msg_invalid (line_number st) valor_str cleaned_line])
            (line_number st)
      end
  | None => st
  end.

(** Lines 48-69: the body of [for line in extracted_text_lines]. *)
Definition step (st : loop_state) (line : str) : loop_state :=
  let line_number := S (line_number st) in
  let cleaned_line := strip line in
  if is_header cleaned_line then
    LoopState (extracted_data st) true
      (info_messages st ++ [msg_section line_number]) line_number
  else
    let st := LoopState (extracted_data st) (in_data_section st)
                (info_messages st) line_number in
    if negb (in_data_section st) || is_noise cleaned_line then st
    else extract st cleaned_line.

(** Lines 42-69. *)
Definition process_lines (info_messages : list str)
           (extracted_text_lines : list str) : loop_state :=
  fold_left step extracted_text_lines
    (LoopState [] false
       (info_messages ++ [py "--- Processando linhas do texto extraído ---"])
       0).

(** What the PDF library hands back.  [page.extract_text(...)] returns a text
    or [None], or raises; [pdfplumber.open] raises or gives the pages. *)
Inductive extract_text : Type :=
  | PageText (text : option str)
  | PageRaises (e : str).

Inductive pdf_file_object : Type :=
  | OpenRaises (e : str)
  | Opened (pages : list extract_text).

(** Lines 24-30: the page loop; [inl e] when a page raises [e]. *)
Fixpoint extract_pages (i num_pages : nat) (pages : list extract_text)
         (extracted_text_lines info_messages : list str)
  : (str + list str) * list str :=
  match pages with
  | [] => (inr extracted_text_lines, info_messages)
  | page :: pages' =>
      let info_messages :=
        info_messages
        ++ [py "Processando página " ++ str_of_nat (i + 1) ++ py "/"
            ++ str_of_nat num_pages ++ py "..."] in
      match page with
      | PageRaises e => (inl e, info_messages)
      | PageText (Some (c :: text)) =>
          extract_pages (S i) num_pages pages'
            (extracted_text_lines ++ split "010"%char (c :: text))
            info_messages
      | PageText _ =>
          extract_pages (S i) num_pages pages' extracted_text_lines
            (info_messages
             ++ [py "Aviso: Nenhum texto extraído da página "
                 ++ str_of_nat (i + 1) ++ py "."])
      end
  end.

(** Lines 16-34: [inl e] when the [try] block raises [e]. *)
Definition extract_lines (pdf : pdf_file_object) (info_messages : list str)
  : (str + list str) * list str :=
  match pdf with
  | OpenRaises e => (inl e, info_messages)
  | Opened pages =>
      let num_pages := length pages in
      extract_pages 0 num_pages pages []
        (info_messages
         ++ [py "PDF contém " ++ str_of_nat num_pages ++ py " página(s)."])
  end.

Definition msg_no_data : str :=
  py "Atenção: Nenhum dado no formato esperado foi extraído após processar o texto do PDF.".

Section Function.

(** The spreadsheet side is outside this file: [pd.DataFrame(rows,
    columns=...)] and the [ExcelWriter] block each give a value or raise
    (an [inl] with the text of the exception). *)
Variable DataFrame : Type.
Variable pd_DataFrame : list row -> str + DataFrame.
Variable to_excel : DataFrame -> str + str.

(** Lines 71-113: after the loop. *)
Definition finish (st : loop_state) : bool * str * list str :=
  let info_messages := info_messages st in
  match extracted_data st with
  | [] => (false, msg_no_data, info_messages ++ [msg_no_data])
  | _ :: _ =>
    let info_messages :=
      info_messages
      ++ [py "--- Processamento de texto concluído. "
          ++ str_of_nat (length (extracted_data st))
          ++ py " linhas de dados encontradas. ---"] in
    match pd_DataFrame (extracted_data st) with
    | inl e =>
        let error_msg := py "Erro durante a criação do DataFrame: " ++ e in
        (false, error_msg, info_messages ++ [error_msg])
    | inr df =>
        let info_messages :=
          info_messages
          ++ [py "--- DataFrame criado com os dados extraídos ---"]
          ++ [py "--- Gerando arquivo Excel em memória ---"] in
        match to_excel df with
        | inr excel_bytes =>
            (true, excel_bytes,
             info_messages ++ ["010"%char :: py "Arquivo Excel gerado com sucesso!"])
        | inl e =>
            let error_msg :=
              "010"%char :: py "Erro ao gerar o arquivo Excel: " ++ e in
            (false, error_msg, info_messages ++ [error_msg])
        end
    end
  end.

(** Lines 41-113: from the extracted lines on. *)
Definition process_text (info_messages : list str)
           (extracted_text_lines : list str) : bool * str * list str :=
  finish (process_lines info_messages extracted_text_lines).

(** The whole function: [(sucesso, dados_ou_erro, lista_mensagens_info)]. *)
Definition processar_pdf_para_streamlit (pdf : pdf_file_object)
  : bool * str * list str :=
  let info_messages :=
    [py "--- Iniciando processamento do PDF ---";
     py "--- Extraindo texto do PDF (pode levar um momento) ---"] in
  match extract_lines pdf info_messages with
  | (inl e, info_messages) =>
      let error_msg :=
        py "Erro ao abrir ou extrair texto do PDF: " ++ e
        ++ py ". Verifique se o arquivo não está corrompido ou protegido por senha." in
      (false, error_msg, info_messages ++ [error_msg])
  | (inr [], info_messages) =>
      let error_msg := py "Erro: Nenhum texto foi extraído do PDF." in
      (false, error_msg, info_messages ++ [error_msg])
  | (inr extracted_text_lines, info_messages) =>
      process_text info_messages extracted_text_lines
  end.

End Function.

(* ================================================================== *)
(** ** What the pattern says, without the search

    The matcher above is a search with priorities.  [ReSpec.lang] is the
    relation
    it searches: [lang s r (rest, cs) (rest', cs')] holds when [r] can take
    the subject from the suffix [rest] to the suffix [rest'], turning the
    captures [cs] into [cs']. *)

Module ReSpec.

Import Re.

Definition config : Type := str * captures.

Fixpoint power (R : config -> config -> Prop) (n : nat) (a c : config) : Prop :=
  match n with
  | O => a = c
  | S n' => exists b, R a b /\ power R n' b c
  end.

Definition consuming (R : config -> config -> Prop) (a b : config) : Prop :=
  R a b /\ length (fst b) < length (fst a).

(** [n] iterations beyond the [lo] a repeat has to make stay within [hi]. *)
Definition within (lo : nat) (hi : option nat) (n : nat) : Prop :=
  match hi with
  | None => True
  | Some h => n <= h - lo
  end.

Fixpoint lang (subject : str) (r : regex) (a c : config) : Prop :=
  match r with
  | Class k =>
      exists x, fst a = x :: fst c /\ in_class k x = true /\ snd a = snd c
  | Seq r1 r2 => exists b, lang subject r1 a b /\ lang subject r2 b c
  | Group i r1 =>
      exists cs,
        lang subject r1 a (fst c, cs)
        /\ snd c = (i, firstn (length (fst a) - length (fst c)) (fst a)) :: cs
  | Bol => a = c /\ length (fst a) = length subject
  | Eol => a = c /\ (fst a = [] \/ fst a = ["010"%char])
  | Repeat _ lo hi r1 =>
      exists b n,
        power (lang subject r1) lo a b
        /\ power (consuming (lang subject r1)) n b c
        /\ within lo hi n
  end.

End ReSpec.

(** The amount token as the specification words it: one to three digits,
    then groups of a dot and three digits, then a comma and two digits. *)
Definition all_digits (w : str) : Prop := Forall (fun c => isdecimal c = true) w.

Definition dotted (groups : list str) : str :=
  concat (map (fun g => "."%char :: g) groups).

Definition amount_shape (s : str) : Prop :=
  exists (lead : str) (groups : list str) (cents : str),
    s = lead ++ dotted groups ++ ","%char :: cents
    /\ 1 <= length lead <= 3 /\ all_digits lead
    /\ Forall (fun g => length g = 3 /\ all_digits g) groups
    /\ length cents = 2 /\ all_digits cents.

(** An amount without a needless leading zero: if it starts with "0", the
    comma follows at once. *)
Definition canonical (s : str) : Prop :=
  match s with
  | d :: c :: _ => Ascii.eqb d "0"%char = true -> c = ","%char
  | _ => True
  end.

(** A data line as the specification words it: a token without blanks,
    blanks, a description, blanks, and an amount that ends the line. *)
Definition data_line (line : str) : Prop :=
  exists tok ws1 desc ws2 amount : str,
    line = tok ++ ws1 ++ desc ++ ws2 ++ amount
    /\ tok <> [] /\ Forall (fun c => isspace c = false) tok
    /\ ws1 <> [] /\ Forall (fun c => isspace c = true) ws1
    /\ ws2 <> [] /\ Forall (fun c => isspace c = true) ws2
    /\ amount_shape amount.

(** The scanner's view of the loop body: what lines 50-58 decide for one
    line, given the flag. *)
Inductive verdict : Type :=
  | Header
  | Discarded
  | Candidate (cleaned_line : str).

Definition scan (in_data_section : bool) (line : str) : verdict :=
  let cleaned_line := strip line in
  if is_header cleaned_line then Header
  else if negb in_data_section || is_noise cleaned_line then Discarded
  else Candidate cleaned_line.

(** The candidate lines the loop hands to the pattern, each with its line
    number, when it starts with the flag [in_data_section] after
    [line_number] lines. *)
Fixpoint candidates (in_data_section : bool) (line_number : nat)
         (lines : list str) : list (nat * str) :=
  match lines with
  | [] => []
  | line :: lines' =>
      match scan in_data_section line with
      | Header => candidates true (S line_number) lines'
      | Discarded => candidates in_data_section (S line_number) lines'
      | Candidate c =>
          (S line_number, c) :: candidates in_data_section (S line_number) lines'
      end
  end.

(* ================================================================== *)
(** ** Writing an amount back

    Modelled from the spec: the formatter of the round-trip property
    ("parsing then reformatting with the same locale rule"), of which the
    source has none.  [Locale.format_amount] is that rule: two decimals (the
    binary value rounded half-even, as [format(v, ',.2f')] rounds), a dot
    between groups of three digits and a comma before the decimals. *)

Module Locale.

Local Open Scope Z_scope.

(** [v * 100] rounded to an integer, and the sign of [v].  The product is
    the exact one, of the number [v] stands for: it is rounded once, half to
    even. *)
Definition hundredths (v : spec_float) : option (bool * Z) :=
  match v with
  | S754_zero neg => Some (neg, 0)
  | S754_finite neg m e =>
      Some (neg,
            PyFloat.div_half_even (100 * Zpos m * 2 ^ Z.max 0 e)
              (2 ^ Z.max 0 (- e)))
  | _ => None
  end.

Definition digit_char (d : Z) : ascii := ascii_of_N (Z.to_N (48 + d)).

Fixpoint digits_of (fuel : nat) (n : Z) : str :=
  match fuel with
  | O => []
  | S fuel' =>
      if n <? 10 then [digit_char n]
      else digits_of fuel' (n / 10) ++ [digit_char (n mod 10)]
  end.

(** The decimal digits of [n], for [0 <= n]; it has no more digits than
    bits. *)
Definition decimal (n : Z) : str := digits_of (S (Z.to_nat (Z.log2 n))) n.

(** A dot after every third digit, counted from the right; the digits come
    and go reversed. *)
Fixpoint group3_rev (r : str) : str :=
  match r with
  | a :: b :: c :: ((_ :: _) as more) =>
      a :: b :: c :: "."%char :: group3_rev more
  | _ => r
  end.

Definition group3 (s : str) : str := List.rev (group3_rev (List.rev s)).

Definition format_amount (v : spec_float) : option str :=
  match hundredths v with
  | Some (neg, c) =>
      Some ((if neg then py "-" else [])
            ++ group3 (decimal (c / 100))
            ++ ","%char :: [digit_char (c mod 100 / 10); digit_char (c mod 10)])
  | None => None
  end.

End Locale.

(* ================================================================== *)
(** ** Notions the statements below use *)

Definition newline : ascii := "010"%char.

(** A blank is what [\s] and [strip] take for one; a solid text has none. *)
Definition blank (c : ascii) : Prop := isspace c = true.
Definition solid (w : str) : Prop := Forall (fun c => isspace c = false) w.

Definition all_in (k : Re.charclass) (w : str) : Prop :=
  Forall (fun x => Re.in_class k x = true) w.

(** One group of the amount, [\.\d{3}]: a dot and three digits. *)
Definition dot_group : Re.regex :=
  Re.Seq (Re.Class (Re.Lit "."%char))
    (Re.Repeat true 3 (Some 3) (Re.Class Re.Digit)).

(** Whether a text is, as a whole, what [amount_pattern] takes. *)
Definition is_amount (s : str) : bool :=
  match Re.run s amount_pattern s []
          (fun rest cs => match rest with [] => Some cs | _ => None end)
  with
  | Some _ => true
  | None => false
  end.

(** The state of the loop with one more row, and with one more line read. *)
Definition with_row (st : loop_state) (r : row) : loop_state :=
  LoopState (extracted_data st ++ [r]) (in_data_section st)
    (info_messages st) (line_number st).

Definition advance (st : loop_state) : loop_state :=
  LoopState (extracted_data st) (in_data_section st) (info_messages st)
    (S (line_number st)).

(** The rows the extractor makes of the candidate lines, in their order. *)
Definition rows_of (cands : list (nat * str)) : list row :=
  flat_map
    (fun c => extracted_data (extract (LoopState [] true [] (fst c)) (snd c)))
    cands.

(** [0 <= valor_float], in binary64's order. *)
Definition non_negative (r : row) : Prop :=
  SFleb (S754_zero false) (valor_float r) = true.

Ltac ascii_cases c := destruct c as [[] [] [] [] [] [] [] []].

Ltac break :=
  repeat match goal with
         | H : exists _, _ |- _ => destruct H
         | H : _ /\ _ |- _ => destruct H
         end.

(* ================================================================== *)
(** ** The caller (lines 134-172) *)

(** [s.replace(old, new)] for a non-empty [old] of any length: the
    occurrences are taken from the left and do not overlap.  [skip] counts
    the characters of an occurrence still to be passed over. *)
Fixpoint replace_from (old new : str) (skip : nat) (s : str) : str :=
  match s with
  | [] => []
  | c :: s' =>
      match skip with
      | S k => replace_from old new k s'
      | O =>
          if startswith s old
          then new ++ replace_from old new (length old - 1) s'
          else c :: replace_from old new 0 s'
      end
  end.

Definition replace_str (old new s : str) : str := replace_from old new 0 s.

(** Line 155:
    [uploaded_file.name.replace('.pdf', '_convertido.xlsx')
                       .replace('.PDF', '_convertido.xlsx')] *)
Definition download_filename (name : str) : str :=
  replace_str (py ".PDF") (py "_convertido.xlsx")
    (replace_str (py ".pdf") (py "_convertido.xlsx") name).

(* ================================================================== *)
(** ** More notions for the statements *)

(** [sep.join(lines)] for a one-character [sep]. *)
Fixpoint join (sep : ascii) (lines : list str) : str :=
  match lines with
  | [] => []
  | [l] => l
  | l :: ls => l ++ sep :: join sep ls
  end.

(** A page whose text extraction returns (a text or [None]). *)
Definition returns (page : extract_text) : Prop :=
  match page with
  | PageText _ => True
  | PageRaises _ => False
  end.

(** A page that returns [None] or the empty text. *)
Definition textless (page : extract_text) : Prop :=
  match page with
  | PageText None => True
  | PageText (Some []) => True
  | _ => False
  end.

(** The lines a page gives to [extracted_text_lines] (lines 26-28). *)
Definition page_lines (page : extract_text) : list str :=
  match page with
  | PageText (Some (c :: text)) => split newline (c :: text)
  | _ => []
  end.

(** The "section started" messages of a run of lines, the first of which
    has the number [S line_number]. *)
Fixpoint section_messages (line_number : nat) (lines : list str) : list str :=
  match lines with
  | [] => []
  | l :: ls =>
      (if is_header (strip l) then [msg_section (S line_number)] else [])
      ++ section_messages (S line_number) ls
  end.

(** The rows one line gives when it is read inside the section. *)
Definition rows_inside (line : str) : list row :=
  extracted_data (step (LoopState [] true [] 0) line).

Definition msg_start : list str :=
  [py "--- Iniciando processamento do PDF ---";
   py "--- Extraindo texto do PDF (pode levar um momento) ---"].

Definition msg_no_text : str := py "Erro: Nenhum texto foi extraído do PDF.".

Definition msg_extraction (e : str) : str :=
  py "Erro ao abrir ou extrair texto do PDF: " ++ e
  ++ py ". Verifique se o arquivo não está corrompido ou protegido por senha.".

Definition msg_success : str :=
  newline :: py "Arquivo Excel gerado com sucesso!".

(* ================================================================== *)
(** * Proofs *)

(** ** The matcher finds exactly what the pattern says *)

Module ReFacts.

Import Re ReSpec.

Section Loops.

Variable R : config -> config -> Prop.
Variable body : runner.

Hypothesis body_sound :
  forall rest cs k res,
    body rest cs k = Some res ->
    exists c, R (rest, cs) c /\ k (fst c) (snd c) = Some res.

Lemma mandatory_sound after n :
  forall rest cs res,
    mandatory body after n rest cs = Some res ->
    exists c, power R n (rest, cs) c /\ after (fst c) (snd c) = Some res.
Proof.
  induction n as [|n IH]; intros rest cs res H; simpl in H.
  - exists (rest, cs). split; [reflexivity | exact H].
  - apply body_sound in H. destruct H as [[r1 c1] [HR H]]. simpl in H.
    apply IH in H. destruct H as [c [Hp Ha]].
    exists c. split; [exists (r1, c1); split; assumption | exact Ha].
Qed.

Lemma optional_sound greedy k b :
  forall rest cs res,
    optional body greedy k b rest cs = Some res ->
    exists n c,
      n <= b /\ power (consuming R) n (rest, cs) c
      /\ k (fst c) (snd c) = Some res.
Proof.
  induction b as [|b IH]; intros rest cs res H; simpl in H.
  - exists 0, (rest, cs). repeat split; [lia | exact H].
  - assert (Hagain :
      body rest cs
        (fun rest' cs' =>
           if length rest' <? length rest
           then optional body greedy k b rest' cs' else None) = Some res ->
      exists n c,
        n <= S b /\ power (consuming R) n (rest, cs) c
        /\ k (fst c) (snd c) = Some res).
    { intro Hb. apply body_sound in Hb.
      destruct Hb as [[r1 c1] [HR Hk]]. simpl in Hk.
      destruct (length r1 <? length rest) eqn:Hlt; [|discriminate].
      apply Nat.ltb_lt in Hlt.
      apply IH in Hk. destruct Hk as [n [c [Hn [Hp Hk]]]].
      exists (S n), c. repeat split; [lia | | exact Hk].
      exists (r1, c1). split; [split; [exact HR | exact Hlt] | exact Hp]. }
    assert (Hstop :
      k rest cs = Some res ->
      exists n c,
        n <= S b /\ power (consuming R) n (rest, cs) c
        /\ k (fst c) (snd c) = Some res).
    { intro Hk. exists 0, (rest, cs). repeat split; [lia | exact Hk]. }
    destruct greedy.
    + destruct (body rest cs _) as [res'|] eqn:Hb.
      * inversion H; subst res'. apply Hagain. reflexivity.
      * apply Hstop. exact H.
    + destruct (k rest cs) as [res'|] eqn:Hk.
      * inversion H; subst res'. apply Hstop. reflexivity.
      * apply Hagain. exact H.
Qed.

Hypothesis body_complete :
  forall a b k,
    R a b ->
    (forall cs, k (fst b) cs <> None) ->
    forall cs, body (fst a) cs k <> None.

Lemma mandatory_complete after n :
  forall a c,
    power R n a c ->
    (forall cs, after (fst c) cs <> None) ->
    forall cs, mandatory body after n (fst a) cs <> None.
Proof.
  induction n as [|n IH]; intros a c Hp Hafter cs; simpl in *.
  - subst c. apply Hafter.
  - destruct Hp as [b [HR Hp]].
    apply (body_complete a b); [exact HR|].
    intro cs'. apply (IH b c); assumption.
Qed.

Lemma power_consuming_length n :
  forall a c, power (consuming R) n a c -> n + length (fst c) <= length (fst a).
Proof.
  induction n as [|n IH]; intros a c Hp; simpl in Hp.
  - subst c. lia.
  - destruct Hp as [b [[_ Hlt] Hp]]. apply IH in Hp. lia.
Qed.

Lemma optional_complete greedy k n :
  forall b a c,
    power (consuming R) n a c ->
    n <= b ->
    (forall cs, k (fst c) cs <> None) ->
    forall cs, optional body greedy k b (fst a) cs <> None.
Proof.
  induction n as [|n IH]; intros b a c Hp Hn Hk cs.
  - simpl in Hp. subst c. destruct b as [|b]; simpl; [apply Hk|].
    destruct greedy.
    + destruct (body (fst a) cs _); [discriminate | apply Hk].
    + specialize (Hk cs). destruct (k (fst a) cs); [discriminate | congruence].
  - destruct b as [|b]; [lia|].
    destruct Hp as [m [[HR Hlt] Hp]].
    assert (Hagain :
      body (fst a) cs
        (fun rest' cs' =>
           if length rest' <? length (fst a)
           then optional body greedy k b rest' cs' else None) <> None).
    { apply (body_complete a m); [exact HR|].
      intro cs'. apply Nat.ltb_lt in Hlt. rewrite Hlt.
      apply (IH b m c); [exact Hp | lia | exact Hk]. }
    simpl. destruct greedy.
    + destruct (body (fst a) cs _); [discriminate | congruence].
    + destruct (k (fst a) cs); [discriminate | exact Hagain].
Qed.

End Loops.

Lemma budget_within lo hi rest n :
  n <= budget lo hi rest -> within lo hi n.
Proof.
  unfold budget, within. destruct hi; [lia | trivial].
Qed.

Lemma within_budget lo hi rest n :
  within lo hi n -> n <= length rest -> n <= budget lo hi rest.
Proof.
  unfold budget, within. destruct hi; lia.
Qed.

(** Soundness: a result of the search is a path of the pattern. *)
Lemma run_sound subject r :
  forall rest cs k res,
    run subject r rest cs k = Some res ->
    exists c, lang subject r (rest, cs) c /\ k (fst c) (snd c) = Some res.
Proof.
  induction r as [c | r1 IH1 r2 IH2 | greedy lo hi r1 IH | i r1 IH | | ];
    intros rest cs k res H; simpl in H.
  - destruct rest as [|x rest]; [discriminate|].
    destruct (in_class c x) eqn:Hc; [|discriminate].
    exists (rest, cs). simpl. split; [|exact H].
    exists x. repeat split. exact Hc.
  - apply IH1 in H. destruct H as [b [H1 H]].
    apply IH2 in H. destruct H as [c [H2 H]].
    exists c. split; [|exact H]. exists b. destruct b; split; assumption.
  - apply (mandatory_sound (lang subject r1) (run subject r1) IH) in H.
    destruct H as [b [Hm H]].
    apply (optional_sound (lang subject r1) (run subject r1) IH) in H.
    destruct H as [n [c [Hn [Ho H]]]].
    exists c. split; [|exact H].
    destruct b as [rb cb]. simpl in *.
    exists (rb, cb), n.
    split; [exact Hm | split; [exact Ho | eapply budget_within; exact Hn]].
  - apply IH in H. destruct H as [[r' c'] [H1 H]]. simpl in H.
    eexists (r', _). split; [|exact H].
    simpl. exists c'. split; [exact H1 | reflexivity].
  - destruct (Nat.eqb (length rest) (length subject)) eqn:E; [|discriminate].
    apply Nat.eqb_eq in E.
    exists (rest, cs). simpl. repeat split; assumption.
  - destruct rest as [|x [|y rest]].
    + exists ([], cs). simpl. repeat split; [left; reflexivity | exact H].
    + destruct (Ascii.eqb x "010"%char) eqn:E; [|discriminate].
      apply Ascii.eqb_eq in E. subst x.
      exists (["010"%char], cs). simpl.
      repeat split; [right; reflexivity | exact H].
    + discriminate.
Qed.

(** Completeness: where the pattern has a path whose end the continuation
    accepts, the search succeeds. *)
Lemma run_complete subject r :
  forall a c k,
    lang subject r a c ->
    (forall cs, k (fst c) cs <> None) ->
    forall cs, run subject r (fst a) cs k <> None.
Proof.
  induction r as [k0 | r1 IH1 r2 IH2 | greedy lo hi r1 IH | i r1 IH | | ];
    intros a c k H Hk cs; simpl in H; simpl.
  - destruct H as [x [Ha [Hx _]]]. rewrite Ha, Hx. apply Hk.
  - destruct H as [b [H1 H2]].
    apply (IH1 a b); [exact H1|].
    intro cs'. apply (IH2 b c); assumption.
  - destruct H as [b [n [Hm [Ho Hw]]]].
    apply (mandatory_complete (lang subject r1) (run subject r1) IH _ lo a b);
      [exact Hm|].
    intro cs'.
    apply (optional_complete (lang subject r1) (run subject r1) IH greedy k n
             _ b c); [exact Ho | | exact Hk].
    apply within_budget; [exact Hw|].
    apply power_consuming_length in Ho. lia.
  - destruct H as [cs0 [H1 _]].
    apply (IH a (fst c, cs0)); [exact H1|].
    intro cs'. simpl. apply Hk.
  - destruct H as [Hac Hlen]. subst c.
    apply Nat.eqb_eq in Hlen. rewrite Hlen. apply Hk.
  - destruct H as [Hac Hend]. subst c.
    destruct Hend as [E|E]; rewrite E in *; simpl; apply Hk.
Qed.

Lemma match_sound r s m :
  match_ r s = Some m -> exists rest, lang s r (s, []) (rest, m).
Proof.
  unfold match_. intro H. apply run_sound in H.
  destruct H as [[rest cs] [HL H]]. simpl in H. inversion H; subst.
  exists rest. exact HL.
Qed.

Lemma match_complete r s cs c :
  lang s r (s, cs) c -> match_ r s <> None.
Proof.
  unfold match_. intro H.
  apply (run_complete s r (s, cs) c); [exact H | discriminate].
Qed.

End ReFacts.

(** ** [data_pattern], piece by piece *)

Module PatternFacts.

Import Re ReSpec ReFacts.

Lemma power_mono (R R' : config -> config -> Prop) n :
  (forall a b, R a b -> R' a b) ->
  forall a c, power R n a c -> power R' n a c.
Proof.
  intro HR. induction n as [|n IH]; intros a c H; simpl in *.
  - exact H.
  - destruct H as [b [H1 H2]]. exists b. split; [apply HR, H1 | apply IH, H2].
Qed.

Lemma consuming_sub (R : config -> config -> Prop) a b :
  consuming R a b -> R a b.
Proof. intros [H _]. exact H. Qed.

Lemma firstn_app_exact (w c : str) :
  firstn (length (w ++ c) - length c) (w ++ c) = w.
Proof.
  rewrite length_app.
  replace (length w + length c - length c) with (length w + 0) by lia.
  rewrite firstn_app_2. simpl. apply app_nil_r.
Qed.

Section Pieces.

Variable subject : str.

Lemma power_class_inv k n :
  forall a c,
    power (lang subject (Class k)) n a c ->
    exists w,
      fst a = w ++ fst c /\ length w = n /\ all_in k w /\ snd a = snd c.
Proof.
  induction n as [|n IH]; intros a c H; simpl in H.
  - subst c. exists []. repeat split. constructor.
  - destruct H as [b [[x [Ha [Hx Hs]]] Hp]].
    apply IH in Hp. destruct Hp as [w [Hb [Hl [Hw Hs']]]].
    exists (x :: w). rewrite Ha, Hb. simpl.
    repeat split; [congruence | constructor; assumption | congruence].
Qed.

Lemma power_class_intro k w :
  all_in k w ->
  forall c cs,
    power (consuming (lang subject (Class k))) (length w) (w ++ c, cs) (c, cs).
Proof.
  induction 1 as [|x w Hx Hw IH]; intros c cs; simpl.
  - reflexivity.
  - exists (w ++ c, cs). split; [|apply IH].
    split; simpl; [|lia].
    exists x. repeat split. exact Hx.
Qed.

Lemma seq_intro r1 r2 b a c :
  lang subject r1 a b -> lang subject r2 b c -> lang subject (Seq r1 r2) a c.
Proof. intros H1 H2. exists b. split; assumption. Qed.

Lemma lit_intro x rest cs :
  lang subject (Class (Lit x)) (x :: rest, cs) (rest, cs).
Proof.
  exists x. repeat split. simpl. apply Ascii.eqb_refl.
Qed.

Lemma group_intro i r a rest cs :
  lang subject r a (rest, cs) ->
  lang subject (Group i r) a
    (rest, (i, firstn (length (fst a) - length rest) (fst a)) :: cs).
Proof. intro H. exists cs. split; [exact H | reflexivity]. Qed.

Lemma group_intro_app i r w rest cs0 cs :
  lang subject r (w ++ rest, cs0) (rest, cs) ->
  lang subject (Group i r) (w ++ rest, cs0) (rest, (i, w) :: cs).
Proof.
  intro H. exists cs. split; [exact H|].
  simpl. rewrite firstn_app_exact. reflexivity.
Qed.

(** A repeat of one character class takes a run of that class. *)
Lemma class_repeat_inv g lo hi k a c :
  lang subject (Repeat g lo hi (Class k)) a c ->
  exists w,
    fst a = w ++ fst c /\ lo <= length w /\ within lo hi (length w - lo)
    /\ all_in k w /\ snd a = snd c.
Proof.
  simpl. intros [b [n [Hm [Ho Hw]]]].
  apply power_class_inv in Hm.
  apply (power_mono _ _ _ (consuming_sub _)) in Ho.
  apply power_class_inv in Ho. break.
  exists (x0 ++ x). subst.
  repeat split.
  - rewrite <- app_assoc. congruence.
  - rewrite length_app. lia.
  - rewrite length_app.
    replace (length x0 + length x - length x0) with (length x) by lia.
    exact Hw.
  - apply Forall_app. split; assumption.
  - congruence.
Qed.

Lemma class_repeat_intro g lo hi k w c cs :
  all_in k w -> lo <= length w -> within lo hi (length w - lo) ->
  lang subject (Repeat g lo hi (Class k)) (w ++ c, cs) (c, cs).
Proof.
  intros Hw Hlo Hhi. simpl.
  exists (skipn lo w ++ c, cs), (length (skipn lo w)).
  assert (Hsplit : w = firstn lo w ++ skipn lo w)
    by (symmetry; apply firstn_skipn).
  unfold all_in in Hw. rewrite Hsplit in Hw. apply Forall_app in Hw.
  destruct Hw as [Hw1 Hw2].
  repeat split.
  - rewrite Hsplit at 1. rewrite <- app_assoc.
    replace lo with (length (firstn lo w)) at 1
      by (rewrite length_firstn; lia).
    apply (power_mono _ _ _ (consuming_sub _)).
    apply power_class_intro. exact Hw1.
  - apply power_class_intro. exact Hw2.
  - rewrite length_skipn. exact Hhi.
Qed.

Lemma dot_group_inv a c :
  lang subject dot_group a c ->
  exists g,
    fst a = "."%char :: g ++ fst c /\ length g = 3 /\ all_digits g
    /\ snd a = snd c.
Proof.
  unfold dot_group. intros [b [[x [Ha [Hx Hs]]] Hr]].
  apply class_repeat_inv in Hr. break.
  simpl in Hx. apply Ascii.eqb_eq in Hx. subst x.
  match goal with H : within _ _ _ |- _ => simpl in H end.
  exists x0. repeat split; try congruence; try lia.
  assumption.
Qed.

Lemma dot_group_intro g c cs :
  length g = 3 -> all_digits g ->
  lang subject dot_group ("."%char :: g ++ c, cs) (c, cs).
Proof.
  intros Hl Hd. unfold dot_group.
  exists (g ++ c, cs). split.
  - exists "."%char. repeat split.
  - apply class_repeat_intro; [exact Hd | lia | simpl; lia].
Qed.

Lemma dot_groups_inv n :
  forall a c,
    power (consuming (lang subject dot_group)) n a c ->
    exists gs,
      fst a = dotted gs ++ fst c
      /\ Forall (fun g => length g = 3 /\ all_digits g) gs
      /\ snd a = snd c.
Proof.
  induction n as [|n IH]; intros a c H; simpl in H.
  - subst c. exists []. repeat split. constructor.
  - destruct H as [b [[Hg _] Hp]].
    apply dot_group_inv in Hg. apply IH in Hp. break.
    exists (x0 :: x). unfold dotted in *. simpl.
    repeat split.
    + rewrite <- app_assoc. congruence.
    + constructor; [split|]; assumption.
    + congruence.
Qed.

Lemma dot_groups_intro gs :
  Forall (fun g => length g = 3 /\ all_digits g) gs ->
  forall c cs,
    power (consuming (lang subject dot_group)) (length gs)
      (dotted gs ++ c, cs) (c, cs).
Proof.
  induction 1 as [|g gs [Hl Hd] Hgs IH]; intros c cs; simpl.
  - reflexivity.
  - exists (dotted gs ++ c, cs). split; [|apply IH].
    unfold dotted. simpl. rewrite <- !app_assoc. simpl.
    split; [apply dot_group_intro; assumption|].
    simpl. rewrite !length_app. simpl. lia.
Qed.

(** The amount sub-pattern takes exactly a token of the amount shape. *)
Lemma amount_pattern_inv a c :
  lang subject amount_pattern a c ->
  exists w, fst a = w ++ fst c /\ amount_shape w /\ snd a = snd c.
Proof.
  unfold amount_pattern.
  intros [b1 [Hlead [b2 [Hgroups [b3 [[x [Hb2 [Hx Hs]]] Hcents]]]]]].
  apply class_repeat_inv in Hlead. apply class_repeat_inv in Hcents.
  simpl in Hgroups. destruct Hgroups as [b [n [Hz [Hg _]]]]. subst b.
  apply dot_groups_inv in Hg.
  simpl in Hx. apply Ascii.eqb_eq in Hx. subst x.
  destruct Hlead as [lead [Hl1 [Hl2 [Hl3 [Hl4 Hl5]]]]].
  destruct Hcents as [cents [Hc1 [Hc2 [Hc3 [Hc4 Hc5]]]]].
  destruct Hg as [gs [Hg1 [Hg2 Hg3]]].
  simpl in Hl3, Hc3.
  exists (lead ++ dotted gs ++ ","%char :: cents). repeat split.
  - rewrite <- !app_assoc. simpl. congruence.
  - exists lead, gs, cents. repeat split; try assumption; lia.
  - congruence.
Qed.

Lemma amount_pattern_intro w c cs :
  amount_shape w -> lang subject amount_pattern (w ++ c, cs) (c, cs).
Proof.
  intros [lead [gs [cents [Hw [Hlen [Hlead [Hgs [Hlc Hcents]]]]]]]].
  subst w. unfold amount_pattern.
  replace ((lead ++ dotted gs ++ ","%char :: cents) ++ c)
    with (lead ++ dotted gs ++ ","%char :: cents ++ c)
    by (rewrite <- !app_assoc; reflexivity).
  apply seq_intro with (dotted gs ++ ","%char :: cents ++ c, cs).
  { apply class_repeat_intro; [exact Hlead | lia | simpl; lia]. }
  apply seq_intro with (","%char :: cents ++ c, cs).
  { exists (dotted gs ++ ","%char :: cents ++ c, cs), (length gs).
    split; [reflexivity|]. split; [|exact I].
    apply dot_groups_intro. exact Hgs. }
  apply seq_intro with (cents ++ c, cs).
  { apply lit_intro. }
  apply class_repeat_intro; [exact Hcents | lia | simpl; lia].
Qed.

End Pieces.

(** [is_amount] decides the amount shape (one way is all that is used). *)
Lemma amount_shape_check s : is_amount s = true -> amount_shape s.
Proof.
  unfold is_amount.
  destruct (run s amount_pattern s [] _) as [res|] eqn:H; [|discriminate].
  intros _. apply run_sound in H. destruct H as [[rest cs] [HL Hk]].
  simpl in Hk. destruct rest; [|discriminate].
  apply amount_pattern_inv in HL. destruct HL as [w [E [A _]]].
  simpl in E. rewrite app_nil_r in E. subst w. exact A.
Qed.

End PatternFacts.

Module DataPattern.

Import Re ReSpec ReFacts PatternFacts.

Lemma all_in_space w :
  all_in Space w <-> Forall (fun c => isspace c = true) w.
Proof. reflexivity. Qed.

Lemma all_in_notspace w :
  all_in NotSpace w <-> Forall (fun c => isspace c = false) w.
Proof.
  unfold all_in. split; apply Forall_impl; intros c; simpl;
    destruct (isspace c); simpl; congruence.
Qed.

Lemma all_in_dot w :
  all_in Dot w <-> Forall (fun c => c <> "010"%char) w.
Proof.
  unfold all_in. split; apply Forall_impl; intros c; simpl.
  - intros H E. subst c. discriminate.
  - intro H. destruct (Ascii.eqb c "010"%char) eqn:E; [|reflexivity].
    apply Ascii.eqb_eq in E. contradiction.
Qed.

Lemma length_pos_nonempty (w : str) : 1 <= length w -> w <> [].
Proof. destruct w; simpl; [lia | discriminate]. Qed.

Lemma nonempty_length_pos (w : str) : w <> [] -> 1 <= length w.
Proof. destruct w; simpl; [congruence | lia]. Qed.

(** What a match of [data_pattern] is: the line splits into the five pieces
    the pattern names, and the groups are three of them. *)
Theorem data_pattern_inv s m :
  match_ data_pattern s = Some m ->
  exists g1 ws1 g2 ws2 g3 tail,
    s = g1 ++ ws1 ++ g2 ++ ws2 ++ g3 ++ tail
    /\ (tail = [] \/ tail = ["010"%char])
    /\ g1 <> [] /\ Forall (fun c => isspace c = false) g1
    /\ ws1 <> [] /\ Forall (fun c => isspace c = true) ws1
    /\ Forall (fun c => c <> "010"%char) g2
    /\ ws2 <> [] /\ Forall (fun c => isspace c = true) ws2
    /\ amount_shape g3
    /\ m = [(3, g3); (2, g2); (1, g1)].
Proof.
  intro H. apply match_sound in H. destruct H as [tail H].
  unfold data_pattern in H.
  destruct H as [b0 [[Hb0 _] H]].
  destruct H as [[r1 c1] [[cs1 [Hg1 Hm1]] H]].
  destruct H as [[r2 c2] [Hws1 H]].
  destruct H as [[r3 c3] [[cs3 [Hg2 Hm3]] H]].
  destruct H as [[r4 c4] [Hws2 H]].
  destruct H as [[r5 c5] [[cs5 [Hg3 Hm5]] [Hend Htail]]].
  subst b0. simpl in Hm1, Hm3, Hm5, Hend, Htail.
  inversion Hend; subst r5 c5. clear Hend.
  apply class_repeat_inv in Hg1. destruct Hg1 as [g1 [E1 [L1 [_ [A1 S1]]]]].
  apply class_repeat_inv in Hws1. destruct Hws1 as [ws1 [E2 [L2 [_ [A2 S2]]]]].
  apply class_repeat_inv in Hg2. destruct Hg2 as [g2 [E3 [_ [_ [A3 S3]]]]].
  apply class_repeat_inv in Hws2. destruct Hws2 as [ws2 [E4 [L4 [_ [A4 S4]]]]].
  apply amount_pattern_inv in Hg3. destruct Hg3 as [g3 [E5 [A5 S5]]].
  simpl in *.
  exists g1, ws1, g2, ws2, g3, tail.
  assert (Hs : s = g1 ++ ws1 ++ g2 ++ ws2 ++ g3 ++ tail) by congruence.
  split; [exact Hs|].
  split; [exact Htail|].
  split; [apply length_pos_nonempty; exact L1|].
  split; [apply all_in_notspace; exact A1|].
  split; [apply length_pos_nonempty; exact L2|].
  split; [exact A2|].
  split; [apply all_in_dot; exact A3|].
  split; [apply length_pos_nonempty; exact L4|].
  split; [exact A4|].
  split; [exact A5|].
  clear Hs. subst. rewrite !firstn_app_exact. reflexivity.
Qed.

(** Conversely, a line that splits that way is matched. *)
Theorem data_pattern_intro g1 ws1 g2 ws2 g3 :
  g1 <> [] -> Forall (fun c => isspace c = false) g1 ->
  ws1 <> [] -> Forall (fun c => isspace c = true) ws1 ->
  Forall (fun c => c <> "010"%char) g2 ->
  ws2 <> [] -> Forall (fun c => isspace c = true) ws2 ->
  amount_shape g3 ->
  match_ data_pattern (g1 ++ ws1 ++ g2 ++ ws2 ++ g3) <> None.
Proof.
  intros N1 A1 N2 A2 A3 N4 A4 A5.
  replace (g1 ++ ws1 ++ g2 ++ ws2 ++ g3)
    with (g1 ++ ws1 ++ g2 ++ ws2 ++ g3 ++ [])
    by (rewrite (app_nil_r g3); reflexivity).
  set (s := g1 ++ ws1 ++ g2 ++ ws2 ++ g3 ++ []).
  apply (match_complete data_pattern s []
           ([], [(3, g3); (2, g2); (1, g1)])).
  unfold data_pattern.
  apply seq_intro with (s, []); [split; reflexivity|].
  apply seq_intro with (ws1 ++ g2 ++ ws2 ++ g3 ++ [], [(1, g1)]).
  { apply group_intro_app. apply class_repeat_intro;
      [apply all_in_notspace; exact A1
      | apply nonempty_length_pos; exact N1 | exact I]. }
  apply seq_intro with (g2 ++ ws2 ++ g3 ++ [], [(1, g1)]).
  { apply class_repeat_intro;
      [exact A2 | apply nonempty_length_pos; exact N2 | exact I]. }
  apply seq_intro with (ws2 ++ g3 ++ [], [(2, g2); (1, g1)]).
  { apply group_intro_app. apply class_repeat_intro;
      [apply all_in_dot; exact A3 | lia | exact I]. }
  apply seq_intro with (g3 ++ [], [(2, g2); (1, g1)]).
  { apply class_repeat_intro;
      [exact A4 | apply nonempty_length_pos; exact N4 | exact I]. }
  apply seq_intro with ([], [(3, g3); (2, g2); (1, g1)]).
  { apply group_intro_app. apply amount_pattern_intro. exact A5. }
  split; [reflexivity | left; reflexivity].
Qed.

End DataPattern.

(** ** Strings *)

Module StrFacts.

Lemma replace_app old new a b :
  replace old new (a ++ b) = replace old new a ++ replace old new b.
Proof.
  induction a as [|x a IH]; simpl; [reflexivity|].
  destruct (Ascii.eqb x old); rewrite IH; [rewrite app_assoc|]; reflexivity.
Qed.

Lemma replace_absent old new w :
  Forall (fun c => c <> old) w -> replace old new w = w.
Proof.
  induction 1 as [|x w Hx Hw IH]; simpl; [reflexivity|].
  destruct (Ascii.eqb x old) eqn:E.
  - apply Ascii.eqb_eq in E. contradiction.
  - rewrite IH. reflexivity.
Qed.

Lemma lstrip_head c s : isspace c = false -> lstrip (c :: s) = c :: s.
Proof. intro H. simpl. rewrite H. reflexivity. Qed.

Lemma lstrip_blank w :
  Forall (fun c => isspace c = true) w -> lstrip w = [].
Proof.
  induction 1 as [|x w Hx Hw IH]; simpl; [reflexivity|]. rewrite Hx. exact IH.
Qed.

Lemma strip_blank w :
  Forall (fun c => isspace c = true) w -> strip w = [].
Proof.
  intro H. unfold strip. rewrite (lstrip_blank w H). reflexivity.
Qed.

Lemma rstrip_last s c : isspace c = false -> rstrip (s ++ [c]) = s ++ [c].
Proof.
  intro H. unfold rstrip. rewrite rev_app_distr. simpl. rewrite H.
  simpl. rewrite rev_involutive. reflexivity.
Qed.

(** A text that neither starts nor ends with a blank is its own [strip]. *)
Lemma strip_trimmed a s b :
  isspace a = false -> isspace b = false ->
  strip (a :: s ++ [b]) = a :: s ++ [b].
Proof.
  intros Ha Hb. unfold strip. rewrite lstrip_head by exact Ha.
  apply (rstrip_last (a :: s) b Hb).
Qed.

Lemma strip_single a : isspace a = false -> strip [a] = [a].
Proof.
  intro Ha. unfold strip. rewrite lstrip_head by exact Ha.
  apply (rstrip_last [] a Ha).
Qed.

Lemma lstrip_no_blank_head s :
  match lstrip s with
  | [] => True
  | c :: _ => isspace c = false
  end.
Proof.
  induction s as [|x s IH]; simpl; [exact I|].
  destruct (isspace x) eqn:E; [exact IH | exact E].
Qed.

(** [strip] leaves no blank at the end. *)
Lemma strip_last s p c : strip s = p ++ [c] -> isspace c = false.
Proof.
  unfold strip, rstrip. intro H.
  apply (f_equal (@List.rev ascii)) in H.
  rewrite rev_involutive, rev_app_distr in H. simpl in H.
  pose proof (lstrip_no_blank_head (List.rev (lstrip s))) as L.
  rewrite H in L. exact L.
Qed.

Lemma lstrip_suffix s : exists w, s = w ++ lstrip s
                                  /\ Forall (fun c => isspace c = true) w.
Proof.
  induction s as [|x s [w [E F]]]; simpl.
  - exists []. split; [reflexivity | constructor].
  - destruct (isspace x) eqn:Hx.
    + exists (x :: w). split; [simpl; congruence | constructor; assumption].
    + exists []. split; [reflexivity | constructor].
Qed.

(** [strip] leaves no blank at the start. *)
Lemma strip_head s c r : strip s = c :: r -> isspace c = false.
Proof.
  unfold strip, rstrip. intro H.
  pose proof (lstrip_suffix (List.rev (lstrip s))) as [w [E F]].
  apply (f_equal (@List.rev ascii)) in E.
  rewrite rev_involutive, rev_app_distr, H in E.
  pose proof (lstrip_no_blank_head s) as L.
  rewrite E in L. simpl in L. exact L.
Qed.

End StrFacts.

(** ** The amount parser on tokens of the amount shape *)

Module AmountFacts.

Import StrFacts.

Lemma digit_char_facts c :
  isdecimal c = true ->
  isspace c = false
  /\ c <> "."%char /\ c <> ","%char /\ c <> "010"%char
  /\ Ascii.eqb c "-"%char = false /\ Ascii.eqb c "+"%char = false
  /\ Ascii.eqb c "_"%char = false
  /\ Ascii.eqb (PyFloat.lower c) "i"%char = false
  /\ Ascii.eqb (PyFloat.lower c) "n"%char = false.
Proof.
  ascii_cases c; vm_compute; intro H; try discriminate H;
    repeat split; discriminate.
Qed.

Lemma digit_not_blank c : isdecimal c = true -> PyFloat.is_blank c = false.
Proof.
  ascii_cases c; vm_compute; intro H; try discriminate H; reflexivity.
Qed.

(** [float] leaves a text alone that neither starts nor ends with one of
    its blanks. *)
Lemma strip_blanks_trimmed a s b :
  PyFloat.is_blank a = false -> PyFloat.is_blank b = false ->
  PyFloat.strip_blanks (a :: s ++ [b]) = a :: s ++ [b].
Proof.
  intros Ha Hb. unfold PyFloat.strip_blanks.
  assert (E1 : PyFloat.lstrip_blanks (a :: s ++ [b]) = (a :: s) ++ [b])
    by (simpl; rewrite Ha; reflexivity).
  rewrite E1, rev_app_distr.
  assert (E2 : PyFloat.lstrip_blanks (List.rev [b] ++ List.rev (a :: s))
               = List.rev [b] ++ List.rev (a :: s))
    by (simpl; rewrite Hb; reflexivity).
  rewrite E2, <- rev_app_distr, rev_involutive. reflexivity.
Qed.

Lemma separator_not_digit : isdecimal "."%char = false
                            /\ isdecimal ","%char = false.
Proof. split; reflexivity. Qed.

Lemma filter_digits w : all_digits w -> filter isdecimal w = w.
Proof.
  induction 1 as [|x w Hx Hw IH]; simpl; [reflexivity|].
  rewrite Hx, IH. reflexivity.
Qed.

Lemma all_digits_concat gs :
  Forall (fun g => length g = 3 /\ all_digits g) gs -> all_digits (concat gs).
Proof.
  induction 1 as [|g gs [_ Hg] Hgs IH]; simpl; [constructor|].
  apply Forall_app. split; assumption.
Qed.

Lemma filter_dotted gs :
  Forall (fun g => length g = 3 /\ all_digits g) gs ->
  filter isdecimal (dotted gs) = concat gs.
Proof.
  induction 1 as [|g gs [_ Hg] Hgs IH]; unfold dotted in *; simpl;
    [reflexivity|].
  rewrite filter_app, IH, (filter_digits g Hg). reflexivity.
Qed.

Lemma replace_dot_dotted gs :
  Forall (fun g => length g = 3 /\ all_digits g) gs ->
  replace "."%char [] (dotted gs) = concat gs.
Proof.
  induction 1 as [|g gs [_ Hg] Hgs IH]; unfold dotted in *; simpl;
    [reflexivity|].
  rewrite replace_app, IH, replace_absent; [reflexivity|].
  eapply Forall_impl; [|exact Hg]. intros c Hc. apply digit_char_facts in Hc.
  tauto.
Qed.

Lemma digits_no (old : ascii) w :
  isdecimal old = false -> all_digits w -> Forall (fun c => c <> old) w.
Proof.
  intros Ho. apply Forall_impl. intros c Hc E. subst c. congruence.
Qed.

(** The text [float] is given for a token of the amount shape. *)
Lemma normalized lead gs cents :
  all_digits lead ->
  Forall (fun g => length g = 3 /\ all_digits g) gs ->
  all_digits cents ->
  replace ","%char (py ".")
    (replace "."%char (py "") (lead ++ dotted gs ++ ","%char :: cents))
  = (lead ++ concat gs) ++ "."%char :: cents.
Proof.
  intros Hl Hg Hc.
  change (py "") with (@nil ascii). change (py ".") with ["."%char].
  assert (Hin : replace "."%char [] (lead ++ dotted gs ++ ","%char :: cents)
                = lead ++ concat gs ++ ","%char :: cents).
  { rewrite !replace_app.
    rewrite replace_dot_dotted by exact Hg.
    rewrite (replace_absent "."%char [] lead)
      by (apply digits_no; [reflexivity | exact Hl]).
    change (replace "."%char [] (","%char :: cents))
      with (","%char :: replace "."%char [] cents).
    rewrite (replace_absent "."%char [] cents)
      by (apply digits_no; [reflexivity | exact Hc]).
    reflexivity. }
  rewrite Hin. rewrite !replace_app.
  rewrite (replace_absent ","%char ["."%char] lead)
    by (apply digits_no; [reflexivity | exact Hl]).
  rewrite (replace_absent ","%char ["."%char] (concat gs))
    by (apply digits_no; [reflexivity | apply all_digits_concat; exact Hg]).
  change (replace ","%char ["."%char] (","%char :: cents))
    with ("."%char :: replace ","%char ["."%char] cents).
  rewrite (replace_absent ","%char ["."%char] cents)
    by (apply digits_no; [reflexivity | exact Hc]).
  rewrite <- app_assoc. reflexivity.
Qed.

Lemma digitpart_rest_digits ds r :
  all_digits ds ->
  match r with
  | [] => True
  | c :: _ => isdecimal c = false /\ Ascii.eqb c "_"%char = false
  end ->
  PyFloat.digitpart_rest (ds ++ r) = (ds, r).
Proof.
  intros Hd Hr. induction Hd as [|x ds Hx Hds IH]; simpl.
  - destruct r as [|c r]; [reflexivity|].
    destruct Hr as [H1 H2]. simpl. rewrite H1, H2. reflexivity.
  - rewrite Hx, IH. reflexivity.
Qed.

Lemma digitpart_digits d ds r :
  all_digits (d :: ds) ->
  match r with
  | [] => True
  | c :: _ => isdecimal c = false /\ Ascii.eqb c "_"%char = false
  end ->
  PyFloat.digitpart ((d :: ds) ++ r) = Some (d :: ds, r).
Proof.
  intros Hd Hr. inversion Hd as [|? ? Hx Hds]; subst.
  simpl. rewrite Hx. rewrite digitpart_rest_digits by assumption.
  reflexivity.
Qed.

Lemma last_cons_app (w : str) :
  w <> [] -> exists p c, w = p ++ [c].
Proof.
  intro H. destruct (exists_last H) as [p [c E]]. exists p, c. exact E.
Qed.

(** [float] reads digits, a point and digits as their decimal value. *)
Lemma float_of_digits d ints frac :
  all_digits (d :: ints) -> all_digits frac -> frac <> [] ->
  PyFloat.float ((d :: ints) ++ "."%char :: frac)
  = Some (PyFloat.of_decimal false
            (PyFloat.digits_value ((d :: ints) ++ frac))
            (0 - Z.of_nat (length frac))).
Proof.
  intros Hi Hf Hne.
  assert (Hd : isdecimal d = true) by (inversion Hi; assumption).
  destruct (digit_char_facts d Hd) as [Hsp [_ [_ [_ [Hm [Hp [_ [Hli Hln]]]]]]]].
  destruct (last_cons_app frac Hne) as [p [c Ec]].
  assert (Hcd : isdecimal c = true).
  { rewrite Ec in Hf. apply Forall_app in Hf. destruct Hf as [_ Hf].
    inversion Hf; assumption. }
  destruct (digit_char_facts c Hcd) as [Hcsp _].
  unfold PyFloat.float.
  assert (Hstrip : PyFloat.strip_blanks ((d :: ints) ++ "."%char :: frac)
                   = (d :: ints) ++ "."%char :: frac).
  { rewrite Ec. simpl.
    replace (ints ++ "."%char :: p ++ [c])
      with ((ints ++ "."%char :: p) ++ [c])
      by (rewrite <- app_assoc; reflexivity).
    apply strip_blanks_trimmed; apply digit_not_blank; assumption. }
  rewrite Hstrip.
  change (PyFloat.sign ((d :: ints) ++ "."%char :: frac))
    with (if Ascii.eqb d "-"%char then (true, ints ++ "."%char :: frac)
          else if Ascii.eqb d "+"%char then (false, ints ++ "."%char :: frac)
          else (false, (d :: ints) ++ "."%char :: frac)).
  rewrite Hm, Hp.
  change (py "inf") with ["i"; "n"; "f"]%char.
  change (py "infinity") with ["i"; "n"; "f"; "i"; "n"; "i"; "t"; "y"]%char.
  change (py "nan") with ["n"; "a"; "n"]%char.
  simpl map. simpl PyFloat.eqb_str. rewrite Hli, Hln. simpl orb.
  cbv iota.
  unfold PyFloat.number.
  rewrite (digitpart_digits d ints ("."%char :: frac) Hi)
    by (split; reflexivity).
  simpl Ascii.eqb. cbv iota.
  destruct frac as [|f0 frac]; [congruence|].
  pose proof (digitpart_digits f0 frac [] Hf I) as Hdp.
  rewrite app_nil_r in Hdp. rewrite Hdp.
  simpl PyFloat.exponent. simpl andb. cbv iota. reflexivity.
Qed.

(** The amount in hundredths that a token of the amount shape writes. *)
Lemma float_of_amount lead gs cents :
  1 <= length lead <= 3 -> all_digits lead ->
  Forall (fun g => length g = 3 /\ all_digits g) gs ->
  length cents = 2 -> all_digits cents ->
  parse_amount (lead ++ dotted gs ++ ","%char :: cents)
  = Some (PyFloat.of_ratio false
            (PyFloat.digits_value (lead ++ concat gs ++ cents)) 100).
Proof.
  intros Hlen Hl Hg Hc2 Hc. unfold parse_amount.
  rewrite normalized by assumption.
  destruct lead as [|d lead]; [simpl in Hlen; lia|].
  assert (Hi : all_digits ((d :: lead) ++ concat gs))
    by (apply Forall_app; split; [exact Hl | apply all_digits_concat, Hg]).
  change ((d :: lead) ++ concat gs) with (d :: (lead ++ concat gs)) in *.
  rewrite float_of_digits;
    [| exact Hi | exact Hc | destruct cents; [discriminate | discriminate]].
  rewrite Hc2. simpl app. rewrite <- app_assoc. reflexivity.
Qed.

Theorem parse_amount_shape w :
  amount_shape w ->
  parse_amount w
  = Some (PyFloat.of_ratio false
            (PyFloat.digits_value (filter isdecimal w)) 100).
Proof.
  intros [lead [gs [cents [E [Hlen [Hl [Hg [Hc2 Hc]]]]]]]]. subst w.
  rewrite float_of_amount by assumption.
  rewrite !filter_app. simpl.
  rewrite filter_dotted, !filter_digits by assumption. reflexivity.
Qed.

Lemma of_ratio_sign p q :
  SFleb (S754_zero false) (PyFloat.of_ratio false p q) = true.
Proof.
  unfold PyFloat.of_ratio.
  destruct (p <=? 0)%Z; [reflexivity|].
  destruct (PyFloat.scale p q (PyFloat.exponent_of p q)) as [n d].
  destruct (PyFloat.div_half_even n d =? 2 ^ 53)%Z.
  - destruct (971 <? PyFloat.exponent_of p q + 1)%Z; reflexivity.
  - destruct (971 <? PyFloat.exponent_of p q)%Z; [reflexivity|].
    destruct (PyFloat.div_half_even n d); reflexivity.
Qed.

(** [of_ratio] against the division of the standard library's binary64
    specification, on quotients of integers that binary64 holds exactly. *)
Example of_ratio_agrees_with_SFdiv :
  forallb
    (fun pq =>
       match PyFloat.of_ratio false (Zpos (fst pq)) (Zpos (snd pq)),
             SFdiv 53 1024 (S754_finite false (fst pq) 0)
               (S754_finite false (snd pq) 0)
       with
       | S754_finite false m e, S754_finite false m' e' =>
           Pos.eqb m m' && Z.eqb e e'
       | _, _ => false
       end)
    [(123456, 100); (1, 10); (1, 3); (7, 100); (999999999999999, 100);
     (4503599627370495, 7); (1, 4503599627370497)]%positive
  = true.
Proof. vm_compute. reflexivity. Qed.

End AmountFacts.

(** ** Tokens of a line *)

Module TokenFacts.

Import StrFacts AmountFacts.

Lemma solid_no_blank w x p r : solid w -> blank x -> w <> p ++ x :: r.
Proof.
  intros Hw Hx E. subst w. apply Forall_app in Hw. destruct Hw as [_ Hw].
  inversion Hw; subst. unfold blank in Hx. congruence.
Qed.

(** The last token of a line is determined by the line. *)
Lemma last_token_unique p1 :
  forall x t1 p2 y t2,
    p1 ++ x :: t1 = p2 ++ y :: t2 ->
    blank x -> blank y -> solid t1 -> solid t2 ->
    p1 = p2 /\ x = y /\ t1 = t2.
Proof.
  induction p1 as [|a p1 IH]; intros x t1 p2 y t2 E Hx Hy H1 H2.
  - destruct p2 as [|b p2]; simpl in E.
    + inversion E. auto.
    + inversion E; subst. exfalso.
      eapply (solid_no_blank _ y p2 t2); [exact H1 | exact Hy | reflexivity].
  - destruct p2 as [|b p2]; simpl in E.
    + inversion E; subst. exfalso.
      eapply (solid_no_blank _ x p1 t1); [exact H2 | exact Hx | reflexivity].
    + inversion E; subst.
      destruct (IH x t1 p2 y t2) as [Ep [Ex Et]]; try assumption.
      subst. auto.
Qed.

(** So is the first one. *)
Lemma first_token_unique t1 :
  forall x r1 t2 y r2,
    t1 ++ x :: r1 = t2 ++ y :: r2 ->
    blank x -> blank y -> solid t1 -> solid t2 ->
    t1 = t2 /\ x :: r1 = y :: r2.
Proof.
  induction t1 as [|a t1 IH]; intros x r1 t2 y r2 E Hx Hy H1 H2.
  - destruct t2 as [|b t2]; simpl in E.
    + auto.
    + inversion E; subst. inversion H2; subst. unfold blank in Hx. congruence.
  - destruct t2 as [|b t2]; simpl in E.
    + inversion E; subst. inversion H1; subst. unfold blank in Hy. congruence.
    + inversion E; subst. inversion H1; subst. inversion H2; subst.
      destruct (IH x r1 t2 y r2) as [Et Er]; try assumption.
      subst. split; [reflexivity | exact Er].
Qed.

Lemma amount_chars w :
  amount_shape w ->
  Forall (fun c => isdecimal c = true \/ c = "."%char \/ c = ","%char) w.
Proof.
  intros [lead [gs [cents [E [_ [Hl [Hg [_ Hc]]]]]]]]. subst w.
  apply Forall_app. split.
  { eapply Forall_impl; [|exact Hl]. intros c Hc'. left. exact Hc'. }
  apply Forall_app. split.
  - induction Hg as [|g gs [_ Hgd] Hgs IH]; unfold dotted in *; simpl;
      [constructor|].
    constructor; [right; left; reflexivity|].
    apply Forall_app. split; [|exact IH].
    eapply Forall_impl; [|exact Hgd]. intros c Hc'. left. exact Hc'.
  - constructor; [right; right; reflexivity|].
    eapply Forall_impl; [|exact Hc]. intros c Hc'. left. exact Hc'.
Qed.

Lemma amount_solid w : amount_shape w -> solid w.
Proof.
  intro H. apply amount_chars in H. eapply Forall_impl; [|exact H].
  intros c [Hc|[Hc|Hc]].
  - apply digit_char_facts in Hc. tauto.
  - subst c. reflexivity.
  - subst c. reflexivity.
Qed.

(** An amount starts and ends with a digit. *)
Lemma amount_ends w :
  amount_shape w ->
  exists d1 mid d2 d3,
    w = d1 :: mid ++ [","%char; d2; d3]
    /\ isdecimal d1 = true /\ isdecimal d2 = true /\ isdecimal d3 = true.
Proof.
  intros [lead [gs [cents [E [Hlen [Hl [Hg [Hc2 Hc]]]]]]]]. subst w.
  destruct lead as [|d1 lead]; [simpl in Hlen; lia|].
  destruct cents as [|d2 [|d3 [|? ?]]]; try discriminate Hc2.
  exists d1, (lead ++ dotted gs), d2, d3.
  inversion Hl; subst. inversion Hc as [|? ? Hd2 Hc']; subst.
  inversion Hc'; subst.
  repeat split; try assumption.
  simpl. rewrite <- app_assoc. reflexivity.
Qed.

Lemma blank_last (ws : str) :
  ws <> [] -> Forall (fun c => isspace c = true) ws ->
  exists ws' x, ws = ws' ++ [x] /\ blank x
                /\ Forall (fun c => isspace c = true) ws'.
Proof.
  intros Hne Hws. destruct (exists_last Hne) as [ws' [x E]].
  exists ws', x. subst ws. apply Forall_app in Hws. destruct Hws as [H1 H2].
  inversion H2; subst. repeat split; assumption.
Qed.

Lemma blank_first (ws : str) :
  ws <> [] -> Forall (fun c => isspace c = true) ws ->
  exists x ws', ws = x :: ws' /\ blank x
                /\ Forall (fun c => isspace c = true) ws'.
Proof.
  intros Hne Hws. destruct ws as [|x ws']; [congruence|].
  inversion Hws; subst. exists x, ws'. repeat split; assumption.
Qed.

(** Checking a property of every element by computing. *)
Lemma Forall_by_bool {A : Type} (P : A -> Prop) (f : A -> bool) :
  (forall x, f x = true -> P x) ->
  forall l, forallb f l = true -> Forall P l.
Proof.
  intros Hf l H. apply Forall_forall. intros x Hx.
  apply Hf. rewrite forallb_forall in H. apply H. exact Hx.
Qed.

Lemma solid_check w : forallb (fun c => negb (isspace c)) w = true -> solid w.
Proof.
  apply Forall_by_bool. intros c. destruct (isspace c); simpl; congruence.
Qed.

Lemma no_newline_check w :
  forallb (fun c => negb (Ascii.eqb c "010"%char)) w = true ->
  Forall (fun c => c <> "010"%char) w.
Proof.
  apply Forall_by_bool. intros c H E. subst c. discriminate H.
Qed.

End TokenFacts.

(** ** The record extractor (lines 60-69) *)

Module ExtractFacts.

Import StrFacts AmountFacts TokenFacts DataPattern.

Lemma extract_no_match st line :
  Re.match_ data_pattern line = None -> extract st line = st.
Proof. intro H. unfold extract. rewrite H. reflexivity. Qed.

(** A matched line gives one row: the first group, the second one stripped,
    and the third one parsed; the parser cannot fail on it. *)
Lemma extract_match st line m :
  Re.match_ data_pattern line = Some m ->
  exists g1 ws1 g2 ws2 g3 tail,
    line = g1 ++ ws1 ++ g2 ++ ws2 ++ g3 ++ tail
    /\ (tail = [] \/ tail = [newline])
    /\ g1 <> [] /\ solid g1
    /\ ws1 <> [] /\ Forall blank ws1
    /\ ws2 <> [] /\ Forall blank ws2
    /\ amount_shape g3
    /\ parse_amount g3
       = Some (PyFloat.of_ratio false
                 (PyFloat.digits_value (filter isdecimal g3)) 100)
    /\ extract st line
       = with_row st
           (Row g1 (strip g2)
              (PyFloat.of_ratio false
                 (PyFloat.digits_value (filter isdecimal g3)) 100)).
Proof.
  intro H. pose proof (data_pattern_inv line m H) as I.
  destruct I as [g1 [ws1 [g2 [ws2 [g3 [tail
    [E [Ht [N1 [A1 [N2 [A2 [A3 [N4 [A4 [A5 Em]]]]]]]]]]]]]]]].
  exists g1, ws1, g2, ws2, g3, tail.
  pose proof (parse_amount_shape g3 A5) as P.
  repeat (split; [assumption|]).
  unfold extract. rewrite H. subst m.
  change (group 3 [(3, g3); (2, g2); (1, g1)]) with g3.
  change (group 2 [(3, g3); (2, g2); (1, g1)]) with g2.
  change (group 1 [(3, g3); (2, g2); (1, g1)]) with g1.
  rewrite P. reflexivity.
Qed.

(** All three groups take part in every match. *)
Lemma data_pattern_groups line m :
  Re.match_ data_pattern line = Some m ->
  Re.group 1 m <> None /\ Re.group 2 m <> None /\ Re.group 3 m <> None.
Proof.
  intro H. apply data_pattern_inv in H.
  destruct H as [g1 [ws1 [g2 [ws2 [g3 [tail H]]]]]].
  destruct H as [_ [_ [_ [_ [_ [_ [_ [_ [_ [_ Em]]]]]]]]]]. subst m.
  repeat split; discriminate.
Qed.

(** A line whose last character is not a newline is matched to its end. *)
Lemma no_tail (body : str) (tail : str) c p :
  body ++ tail = p ++ [c] -> c <> newline ->
  tail = [] \/ tail = [newline] -> tail = [].
Proof.
  intros E Hc [Ht|Ht]; [exact Ht|]. subst tail. exfalso.
  apply app_inj_tail in E. destruct E as [_ E]. congruence.
Qed.

(** The extractor never writes a diagnostic. *)
Lemma extract_messages st line :
  info_messages (extract st line) = info_messages st.
Proof.
  destruct (Re.match_ data_pattern line) as [m|] eqn:H.
  - destruct (extract_match st line m H)
      as [g1 [ws1 [g2 [ws2 [g3 [tail [_ [_ [_ [_ [_ [_ [_ [_ [_ [_ E]]]]]]]]]]]]]]]].
    rewrite E. reflexivity.
  - rewrite extract_no_match by exact H. reflexivity.
Qed.

Lemma blank_newline : blank newline.
Proof. reflexivity. Qed.

Lemma matched_no_tail (g1 ws1 g2 ws2 g3 tail p : str) c :
  g1 ++ ws1 ++ g2 ++ ws2 ++ g3 ++ tail = p ++ [c] ->
  isspace c = false ->
  tail = [] \/ tail = [newline] -> tail = [].
Proof.
  intros E Hc Ht.
  apply (no_tail (g1 ++ ws1 ++ g2 ++ ws2 ++ g3) tail c p);
    [| intro; subst c; discriminate | exact Ht].
  rewrite <- E, <- !app_assoc. reflexivity.
Qed.

(** The third group of a match is the last token of the line. *)
Lemma match_last_token line m pre x tok :
  Re.match_ data_pattern line = Some m ->
  line = pre ++ x :: tok -> blank x -> solid tok -> tok <> [] ->
  group 3 m = tok /\ amount_shape tok.
Proof.
  intros H E Hx Htok Hne.
  pose proof (data_pattern_inv line m H) as I.
  destruct I as [g1 [ws1 [g2 [ws2 [g3 [tail
    [El [Ht [N1 [A1 [N2 [A2 [A3 [N4 [A4 [A5 Em]]]]]]]]]]]]]]]].
  subst m. change (group 3 _) with g3.
  destruct (exists_last Hne) as [t' [c Ec]].
  assert (Hc : isspace c = false).
  { rewrite Ec in Htok. apply Forall_app in Htok. destruct Htok as [_ Htok].
    inversion Htok; assumption. }
  assert (Htail : tail = []).
  { apply (matched_no_tail g1 ws1 g2 ws2 g3 tail (pre ++ x :: t') c);
      [| exact Hc | exact Ht].
    rewrite <- El, E, Ec, <- app_assoc. reflexivity. }
  subst tail. rewrite app_nil_r in El.
  destruct (blank_last ws2 N4 A4) as [ws2' [y [Ews [Hy _]]]].
  assert (Eq : (g1 ++ ws1 ++ g2 ++ ws2') ++ y :: g3 = pre ++ x :: tok).
  { rewrite <- E, El, Ews, <- !app_assoc. reflexivity. }
  destruct (last_token_unique _ _ _ _ _ _ Eq Hy Hx (amount_solid g3 A5) Htok)
    as [_ [_ Eg]].
  split; [exact Eg | rewrite <- Eg; exact A5].
Qed.

(** How a matched line reads: its first token is the first group, its last
    token the third, and the second group lies between them with nothing but
    blanks around it. *)
Lemma match_three_tokens line m tok x mid y last :
  Re.match_ data_pattern line = Some m ->
  line = tok ++ x :: mid ++ y :: last ->
  solid tok -> blank x -> blank y -> solid last -> last <> [] ->
  amount_shape last
  /\ exists g2 w1 w2,
       m = [(3, last); (2, g2); (1, tok)]
       /\ mid = w1 ++ g2 ++ w2 /\ Forall blank w1 /\ Forall blank w2.
Proof.
  intros H E Htok Hx Hy Hlast Hne.
  assert (E' : line = (tok ++ x :: mid) ++ y :: last)
    by (rewrite E, <- app_assoc; reflexivity).
  destruct (match_last_token line m _ y last H E' Hy Hlast Hne) as [_ A].
  split; [exact A|].
  pose proof (data_pattern_inv line m H) as I.
  destruct I as [g1 [ws1 [g2 [ws2 [g3 [tail
    [El [Ht [N1 [A1 [N2 [A2 [A3 [N4 [A4 [A5 Em]]]]]]]]]]]]]]]].
  destruct (exists_last Hne) as [t' [c Ec]].
  assert (Hc : isspace c = false).
  { rewrite Ec in Hlast. apply Forall_app in Hlast.
    destruct Hlast as [_ Hlast]. inversion Hlast; assumption. }
  assert (Htail : tail = []).
  { apply (matched_no_tail g1 ws1 g2 ws2 g3 tail
             (tok ++ x :: mid ++ y :: t') c); [| exact Hc | exact Ht].
    rewrite <- El, E, Ec.
    rewrite <- app_assoc. simpl. rewrite <- app_assoc. reflexivity. }
  rewrite Htail, app_nil_r in El. clear Ht Htail Ec Hc.
  destruct (blank_first ws1 N2 A2) as [x1 [ws1' [Ews1 [Hx1 Hws1']]]].
  destruct (blank_last ws2 N4 A4) as [ws2' [y2 [Ews2 [Hy2 Hws2']]]].
  assert (Eq1 : g1 ++ x1 :: (ws1' ++ g2 ++ ws2 ++ g3)
                = tok ++ x :: (mid ++ y :: last)).
  { rewrite <- E, El, Ews1. reflexivity. }
  destruct (first_token_unique _ _ _ _ _ _ Eq1 Hx1 Hx A1 Htok) as [Eg1 Er].
  inversion Er as [[Ex Er']].
  assert (Eq2 : (ws1' ++ g2 ++ ws2') ++ y2 :: g3 = mid ++ y :: last).
  { rewrite <- Er', Ews2, <- !app_assoc. reflexivity. }
  destruct (last_token_unique _ _ _ _ _ _ Eq2 Hy2 Hy (amount_solid g3 A5) Hlast)
    as [Emid [_ Eg3]].
  exists g2, ws1', ws2'. subst. repeat split; assumption.
Qed.

(** A line without a blank is not matched. *)
Lemma match_needs_blank line m :
  Re.match_ data_pattern line = Some m -> ~ solid line.
Proof.
  intros H Hs.
  pose proof (data_pattern_inv line m H) as I.
  destruct I as [g1 [ws1 [g2 [ws2 [g3 [tail
    [El [_ [_ [_ [N2 [A2 _]]]]]]]]]]]].
  destruct (blank_first ws1 N2 A2) as [x [ws1' [Ews [Hx _]]]].
  rewrite Ews in El.
  apply (solid_no_blank line x g1 (ws1' ++ g2 ++ ws2 ++ g3 ++ tail) Hs Hx).
  rewrite El. reflexivity.
Qed.

(** A line in the shape the specification words, and without a newline, is
    matched. *)
Lemma data_line_matched line :
  data_line line -> Forall (fun c => c <> newline) line ->
  Re.match_ data_pattern line <> None.
Proof.
  intros [tok [ws1 [desc [ws2 [amount
    [E [N1 [A1 [N2 [A2 [N4 [A4 A5]]]]]]]]]]]] Hnl.
  subst line.
  apply data_pattern_intro; try assumption.
  apply Forall_app in Hnl. destruct Hnl as [_ Hnl].
  apply Forall_app in Hnl. destruct Hnl as [_ Hnl].
  apply Forall_app in Hnl. destruct Hnl as [Hnl _]. exact Hnl.
Qed.

Lemma app_tail3 (a b : str) x1 x2 x3 y1 y2 y3 :
  a ++ [x1; x2; x3] = b ++ [y1; y2; y3] -> x1 = y1 /\ x2 = y2 /\ x3 = y3.
Proof.
  intro E. apply (f_equal (@List.rev ascii)) in E.
  rewrite !rev_app_distr in E. simpl in E. inversion E. auto.
Qed.

End ExtractFacts.

(** ** The loop (lines 48-69) *)

Module LoopFacts.

Import StrFacts AmountFacts TokenFacts DataPattern ExtractFacts.

(** The loop body is the scanner's verdict followed by its consequence. *)
Lemma step_scan st line :
  step st line
  = match scan (in_data_section st) line with
    | Header =>
        LoopState (extracted_data st) true
          (info_messages st ++ [msg_section (S (line_number st))])
          (S (line_number st))
    | Discarded => advance st
    | Candidate c => extract (advance st) c
    end.
Proof.
  unfold step, scan, advance. simpl.
  destruct (is_header (strip line)); [reflexivity|].
  destruct (negb (in_data_section st) || is_noise (strip line)); reflexivity.
Qed.

(** What one line can do to the rows and the messages: nothing is removed,
    at most one row or one message is added. *)
Lemma step_grows st line :
  exists rows msgs,
    extracted_data (step st line) = extracted_data st ++ rows
    /\ info_messages (step st line) = info_messages st ++ msgs
    /\ length rows <= 1 /\ length msgs <= 1
    /\ Forall non_negative rows
    /\ line_number (step st line) = S (line_number st).
Proof.
  rewrite step_scan.
  destruct (scan (in_data_section st) line) as [| |c].
  - exists [], [msg_section (S (line_number st))]. simpl.
    rewrite app_nil_r. repeat split; try lia. constructor.
  - exists [], []. simpl. rewrite !app_nil_r. repeat split; try lia.
    constructor.
  - destruct (Re.match_ data_pattern c) as [m|] eqn:H.
    + destruct (extract_match (advance st) c m H)
        as [g1 [ws1 [g2 [ws2 [g3 [tail
            [_ [_ [_ [_ [_ [_ [_ [_ [_ [_ E]]]]]]]]]]]]]]]].
      rewrite E.
      eexists [_], []. simpl. rewrite app_nil_r.
      repeat split; try lia.
      constructor; [|constructor]. apply of_ratio_sign.
    + rewrite extract_no_match by exact H.
      exists [], []. simpl. rewrite !app_nil_r. repeat split; try lia.
      constructor.
Qed.

Lemma step_flag st line :
  in_data_section (step st line)
  = in_data_section st || is_header (strip line).
Proof.
  rewrite step_scan. unfold scan.
  destruct (is_header (strip line)); simpl; [rewrite orb_true_r; reflexivity|].
  rewrite orb_false_r.
  destruct (negb (in_data_section st) || is_noise (strip line));
    [reflexivity|].
  destruct (Re.match_ data_pattern (strip line)) as [m|] eqn:H.
  - destruct (extract_match (advance st) _ m H)
      as [g1 [ws1 [g2 [ws2 [g3 [tail
          [_ [_ [_ [_ [_ [_ [_ [_ [_ [_ E]]]]]]]]]]]]]]]].
    rewrite E. reflexivity.
  - rewrite extract_no_match by exact H. reflexivity.
Qed.

(** The same, over any run of lines. *)
Lemma run_grows lines :
  forall st,
    exists rows msgs,
      extracted_data (fold_left step lines st) = extracted_data st ++ rows
      /\ info_messages (fold_left step lines st) = info_messages st ++ msgs
      /\ Forall non_negative rows
      /\ line_number (fold_left step lines st)
         = line_number st + length lines.
Proof.
  induction lines as [|l lines IH]; intro st; simpl.
  - exists [], []. rewrite !app_nil_r. repeat split; [constructor | lia].
  - destruct (IH (step st l)) as [rows2 [msgs2 [Ed [Em [Hn Hl]]]]].
    destruct (step_grows st l) as [rows1 [msgs1 [Ed1 [Em1 [_ [_ [Hn1 Hl1]]]]]]].
    exists (rows1 ++ rows2), (msgs1 ++ msgs2).
    rewrite Ed, Em, Ed1, Em1, Hl, Hl1, !app_assoc.
    repeat split; [apply Forall_app; split; assumption | lia].
Qed.

Lemma run_flag lines :
  forall st,
    in_data_section st = true ->
    in_data_section (fold_left step lines st) = true.
Proof.
  induction lines as [|l lines IH]; intros st H; simpl; [exact H|].
  apply IH. rewrite step_flag, H. reflexivity.
Qed.

(** Before the header: nothing happens but the count of lines. *)
Lemma step_outside st line :
  in_data_section st = false -> is_header (strip line) = false ->
  step st line = advance st.
Proof.
  intros Hf Hh. unfold step, advance. rewrite Hh, Hf. reflexivity.
Qed.

Lemma run_outside lines :
  Forall (fun l => is_header (strip l) = false) lines ->
  forall st,
    in_data_section st = false ->
    fold_left step lines st
    = LoopState (extracted_data st) false (info_messages st)
        (line_number st + length lines).
Proof.
  induction 1 as [|l lines Hl Hls IH]; intros st Hf; simpl.
  - rewrite Nat.add_0_r. destruct st; simpl in *. subst. reflexivity.
  - rewrite (step_outside st l Hf Hl).
    rewrite IH by exact Hf. simpl.
    f_equal. lia.
Qed.

Lemma candidates_outside lines :
  Forall (fun l => is_header (strip l) = false) lines ->
  forall n rest,
    candidates false n (lines ++ rest)
    = candidates false (n + length lines) rest.
Proof.
  induction 1 as [|l lines Hl Hls IH]; intros n rest; simpl.
  - rewrite Nat.add_0_r. reflexivity.
  - unfold scan. rewrite Hl. simpl. rewrite IH. f_equal. lia.
Qed.

Lemma scan_candidate b line c :
  scan b line = Candidate c -> c = strip line /\ b = true.
Proof.
  unfold scan. destruct (is_header (strip line)); [discriminate|].
  destruct b; simpl; [|discriminate].
  destruct (is_noise (strip line)); [discriminate|].
  intro H. inversion H. auto.
Qed.

(** A line that the pattern does not match adds no row and no message. *)
Lemma step_unmatched st line :
  Re.match_ data_pattern (strip line) = None ->
  extracted_data (step st line) = extracted_data st
  /\ (is_header (strip line) = false ->
      info_messages (step st line) = info_messages st).
Proof.
  intro H. rewrite step_scan. unfold scan.
  destruct (is_header (strip line)); [split; [reflexivity | discriminate]|].
  destruct (negb (in_data_section st) || is_noise (strip line));
    [split; reflexivity|].
  rewrite extract_no_match by exact H. split; reflexivity.
Qed.

(** A last token that starts with a minus sign is no amount. *)
Lemma minus_unmatched :
  (forall rest, solid rest ->
                Re.match_ data_pattern ("-"%char :: rest) = None)
  /\ (forall pre x rest,
         blank x -> solid rest ->
         Re.match_ data_pattern (pre ++ x :: "-"%char :: rest) = None).
Proof.
  split.
  - intros rest Hr.
    destruct (Re.match_ data_pattern ("-"%char :: rest)) as [m|] eqn:H;
      [|reflexivity].
    exfalso. apply (match_needs_blank _ m H).
    constructor; [reflexivity | exact Hr].
  - intros pre x rest Hx Hr.
    destruct (Re.match_ data_pattern (pre ++ x :: "-"%char :: rest))
      as [m|] eqn:H; [|reflexivity].
    exfalso.
    assert (Hs : solid ("-"%char :: rest))
      by (constructor; [reflexivity | exact Hr]).
    destruct (match_last_token _ m pre x ("-"%char :: rest) H eq_refl Hx Hs)
      as [_ A]; [discriminate|].
    destruct (amount_ends _ A) as [d1 [mid [d2 [d3 [E [Hd1 _]]]]]].
    inversion E; subst d1. discriminate Hd1.
Qed.

(** The test of line 57, in words. *)
Lemma is_noise_spec c :
  is_noise c = true
  <-> (c = []
       \/ contains (py "---") c = true
       \/ startswith c (py "***") = true
       \/ contains (py "SIAPE, GERENCIAL") c = true
       \/ startswith c (py "DATA:") = true).
Proof.
  unfold is_noise. rewrite !orb_true_iff.
  assert (He : is_empty c = true <-> c = [])
    by (destruct c; simpl; split; congruence).
  rewrite He. tauto.
Qed.

(** The rows an extraction adds do not depend on the state it starts from. *)
Lemma extract_rows st st' c :
  exists rows,
    extracted_data (extract st c) = extracted_data st ++ rows
    /\ extracted_data (extract st' c) = extracted_data st' ++ rows.
Proof.
  unfold extract.
  destruct (Re.match_ data_pattern c) as [m|].
  - destruct (parse_amount (group 3 m)) as [v|].
    + exists [Row (group 1 m) (strip (group 2 m)) v]. split; reflexivity.
    + exists []. simpl. rewrite !app_nil_r. split; reflexivity.
  - exists []. rewrite !app_nil_r. split; reflexivity.
Qed.

(** The rows of a run of lines are those of its candidate lines, in order:
    nothing reaches [extracted_data] but through the extractor. *)
Lemma run_candidates lines :
  forall st,
    extracted_data (fold_left step lines st)
    = extracted_data st
      ++ rows_of (candidates (in_data_section st) (line_number st) lines).
Proof.
  induction lines as [|l lines IH]; intro st; simpl.
  - rewrite app_nil_r. reflexivity.
  - destruct (step_grows st l) as [_ [_ [_ [_ [_ [_ [_ Hn]]]]]]].
    rewrite IH, Hn, step_flag, step_scan.
    unfold scan. destruct (is_header (strip l)) eqn:Hh.
    + rewrite orb_true_r. reflexivity.
    + rewrite orb_false_r.
      destruct (negb (in_data_section st) || is_noise (strip l)) eqn:Hd;
        [reflexivity|].
      destruct (extract_rows (advance st)
                  (LoopState [] true [] (S (line_number st))) (strip l))
        as [rows [E1 E2]].
      rewrite E1. unfold rows_of. simpl flat_map. rewrite E2. simpl.
      rewrite <- app_assoc. reflexivity.
Qed.

(** From an opened file with text on, the function is [process_text]. *)
Lemma processar_opened (DataFrame : Type)
      (pd_DataFrame : list row -> str + DataFrame)
      (to_excel : DataFrame -> str + str) pdf l ls msgs :
  extract_lines pdf
    [py "--- Iniciando processamento do PDF ---";
     py "--- Extraindo texto do PDF (pode levar um momento) ---"]
  = (inr (l :: ls), msgs) ->
  processar_pdf_para_streamlit DataFrame pd_DataFrame to_excel pdf
  = process_text DataFrame pd_DataFrame to_excel msgs (l :: ls).
Proof.
  intro H. unfold processar_pdf_para_streamlit. rewrite H. reflexivity.
Qed.

End LoopFacts.

(** ** Writing back what was parsed *)

Module RoundTrip.

Import StrFacts AmountFacts TokenFacts.

Local Open Scope Z_scope.

(** Round-half-even is within half a unit, and anything strictly within half
    a unit is the result. *)
Lemma div_half_even_bound n d :
  0 < d ->
  - d <= 2 * (n - d * PyFloat.div_half_even n d) <= d.
Proof.
  intro Hd. unfold PyFloat.div_half_even.
  pose proof (Z.div_mod n d ltac:(lia)) as E.
  pose proof (Z.mod_pos_bound n d Hd) as B.
  remember (n / d) as q. remember (n mod d) as r. clear Heqq Heqr.
  destruct (2 * r ?= d) eqn:C.
  - apply Z.compare_eq in C. destruct (Z.even q); lia.
  - rewrite Z.compare_lt_iff in C. lia.
  - rewrite Z.compare_gt_iff in C. lia.
Qed.

Lemma div_half_even_exact n d t :
  0 < d -> 2 * Z.abs (n - d * t) < d -> PyFloat.div_half_even n d = t.
Proof.
  intros Hd Ht. pose proof (div_half_even_bound n d Hd) as B.
  remember (PyFloat.div_half_even n d) as m.
  assert (Z.abs (d * (m - t)) < d) by lia.
  nia.
Qed.

Lemma exponent_of_small p :
  0 < p < 2 ^ 52 -> -1074 <= PyFloat.exponent_of p 100 <= -7.
Proof.
  intros [Hp Hb]. unfold PyFloat.exponent_of.
  assert (Hl : Z.log2 p < 52) by (apply Z.log2_lt_pow2; lia).
  pose proof (Z.log2_nonneg p) as Hl0.
  change (Z.log2 100) with 6.
  destruct (PyFloat.scale p 100 (Z.log2 p - 6 - 53)) as [n d].
  destruct (n / d <? 2 ^ 53); lia.
Qed.

(** The numeric core: a count of hundredths below 2^52 survives the trip
    through binary64. *)
Lemma hundredths_of_ratio n :
  0 <= n < 2 ^ 52 ->
  Locale.hundredths (PyFloat.of_ratio false n 100) = Some (false, n).
Proof.
  intros [H0 Hb]. unfold PyFloat.of_ratio.
  destruct (n <=? 0) eqn:Hz.
  { apply Z.leb_le in Hz. assert (n = 0) by lia. subst n. reflexivity. }
  apply Z.leb_gt in Hz.
  pose proof (exponent_of_small n ltac:(lia)) as He.
  remember (PyFloat.exponent_of n 100) as e.
  unfold PyFloat.scale.
  replace (Z.max 0 (- e)) with (- e) by lia.
  replace (Z.max 0 e) with 0 by lia.
  change (100 * 2 ^ 0) with 100.
  assert (HP : 128 <= 2 ^ (- e)).
  { change 128 with (2 ^ 7). apply Z.pow_le_mono_r; lia. }
  pose proof (div_half_even_bound (n * 2 ^ (- e)) 100 ltac:(lia)) as B.
  remember (PyFloat.div_half_even (n * 2 ^ (- e)) 100) as m.
  assert (Hm : 1 <= m) by nia.
  destruct (m =? 2 ^ 53) eqn:Hc.
  - apply Z.eqb_eq in Hc.
    replace (971 <? e + 1) with false by (symmetry; apply Z.ltb_ge; lia).
    change (2 ^ 52) with (Z.pos 4503599627370496). cbv iota.
    unfold Locale.hundredths.
    replace (Z.max 0 (e + 1)) with 0 by lia.
    replace (Z.max 0 (- (e + 1))) with (- e - 1) by lia.
    f_equal. f_equal.
    assert (HP2 : 2 ^ (- e) = 2 * 2 ^ (- e - 1)).
    { replace (- e) with (Z.succ (- e - 1)) at 1 by lia.
      apply Z.pow_succ_r. lia. }
    apply div_half_even_exact; [lia|].
    change (Z.pos 4503599627370496) with (2 ^ 52).
    change (2 ^ 0) with 1.
    assert (Hm53 : m = 2 * 2 ^ 52) by (rewrite Hc; reflexivity).
    nia.
  - apply Z.eqb_neq in Hc.
    replace (971 <? e) with false by (symmetry; apply Z.ltb_ge; lia).
    destruct m as [|m'|m']; try lia.
    unfold Locale.hundredths.
    replace (Z.max 0 e) with 0 by lia.
    replace (Z.max 0 (- e)) with (- e) by lia.
    f_equal. f_equal.
    apply div_half_even_exact; [lia|].
    change (2 ^ 0) with 1. nia.
Qed.

(** *** Digits *)

Lemma digit_facts c :
  isdecimal c = true ->
  (0 <=? PyFloat.digit_value c) && (PyFloat.digit_value c <=? 9) = true
  /\ Locale.digit_char (PyFloat.digit_value c) = c
  /\ (1 <=? PyFloat.digit_value c) = negb (Ascii.eqb c "0"%char).
Proof.
  ascii_cases c; vm_compute; intro H; try discriminate H;
    repeat split; reflexivity.
Qed.

Lemma digit_range c :
  isdecimal c = true -> 0 <= PyFloat.digit_value c <= 9.
Proof.
  intro H. destruct (digit_facts c H) as [R _].
  apply andb_true_iff in R. destruct R as [R1 R2].
  apply Z.leb_le in R1. apply Z.leb_le in R2. lia.
Qed.

Lemma digit_char_value c :
  isdecimal c = true -> Locale.digit_char (PyFloat.digit_value c) = c.
Proof. intro H. apply (digit_facts c H). Qed.

Lemma digit_nonzero c :
  isdecimal c = true -> Ascii.eqb c "0"%char = false ->
  1 <= PyFloat.digit_value c.
Proof.
  intros H Hz. destruct (digit_facts c H) as [_ [_ R]].
  rewrite Hz in R. apply Z.leb_le in R. exact R.
Qed.

Lemma digits_value_snoc ds c :
  PyFloat.digits_value (ds ++ [c])
  = 10 * PyFloat.digits_value ds + PyFloat.digit_value c.
Proof. unfold PyFloat.digits_value. rewrite fold_left_app. reflexivity. Qed.

Lemma digits_value_two ds c1 c2 :
  PyFloat.digits_value (ds ++ [c1; c2])
  = 100 * PyFloat.digits_value ds
    + 10 * PyFloat.digit_value c1 + PyFloat.digit_value c2.
Proof.
  change [c1; c2] with ([c1] ++ [c2]).
  rewrite app_assoc, !digits_value_snoc. lia.
Qed.

Lemma digits_value_nonneg ds :
  all_digits ds -> 0 <= PyFloat.digits_value ds.
Proof.
  induction ds as [|c ds IH] using rev_ind; intro H.
  - reflexivity.
  - apply Forall_app in H. destruct H as [H1 H2]. inversion H2; subst.
    rewrite digits_value_snoc.
    pose proof (digit_range c ltac:(assumption)). specialize (IH H1). lia.
Qed.

(** Digits that start with a non-zero one are worth at least a power of two
    for every digit after the first. *)
Lemma digits_value_lower d r :
  all_digits (d :: r) -> Ascii.eqb d "0"%char = false ->
  2 ^ Z.of_nat (length r) <= PyFloat.digits_value (d :: r).
Proof.
  induction r as [|c r IH] using rev_ind; intros H Hz.
  - inversion H; subst. simpl.
    pose proof (digit_nonzero d ltac:(assumption) Hz).
    unfold PyFloat.digits_value. simpl. lia.
  - change (d :: r ++ [c]) with ((d :: r) ++ [c]) in *.
    apply Forall_app in H. destruct H as [H1 H2]. inversion H2; subst.
    rewrite digits_value_snoc, length_app. simpl length.
    rewrite Nat2Z.inj_add. change (Z.of_nat 1) with 1.
    rewrite Z.pow_add_r by lia. change (2 ^ 1) with 2.
    specialize (IH H1 Hz).
    pose proof (digit_range c ltac:(assumption)).
    assert (0 < 2 ^ Z.of_nat (length r)) by (apply Z.pow_pos_nonneg; lia).
    lia.
Qed.

Lemma digits_of_S fuel n :
  Locale.digits_of (S fuel) n
  = if n <? 10 then [Locale.digit_char n]
    else Locale.digits_of fuel (n / 10) ++ [Locale.digit_char (n mod 10)].
Proof. reflexivity. Qed.

(** Writing the digits of a value gives back digits without a leading zero
    (a lone zero apart). *)
Lemma digits_of_value d r :
  all_digits (d :: r) -> Ascii.eqb d "0"%char = false \/ r = [] ->
  forall fuel, (length (d :: r) <= fuel)%nat ->
  Locale.digits_of fuel (PyFloat.digits_value (d :: r)) = d :: r.
Proof.
  induction r as [|c r IH] using rev_ind; intros H Hz fuel Hf.
  - destruct fuel as [|fuel]; [simpl in Hf; lia|].
    inversion H; subst.
    pose proof (digit_range d ltac:(assumption)) as R.
    unfold PyFloat.digits_value. simpl fold_left. rewrite digits_of_S.
    replace (PyFloat.digit_value d <? 10) with true
      by (symmetry; apply Z.ltb_lt; lia).
    rewrite digit_char_value by assumption. reflexivity.
  - destruct Hz as [Hz|Hz]; [|destruct r; discriminate Hz].
    destruct fuel as [|fuel]; [simpl in Hf; lia|].
    change (d :: r ++ [c]) with ((d :: r) ++ [c]) in *.
    apply Forall_app in H. destruct H as [H1 H2]. inversion H2; subst.
    rewrite digits_value_snoc.
    pose proof (digit_range c ltac:(assumption)) as R.
    pose proof (digits_value_lower d r H1 Hz) as L.
    assert (0 < 2 ^ Z.of_nat (length r)) by (apply Z.pow_pos_nonneg; lia).
    remember (PyFloat.digits_value (d :: r)) as V.
    rewrite digits_of_S.
    replace (10 * V + PyFloat.digit_value c <? 10) with false
      by (symmetry; apply Z.ltb_ge; lia).
    replace ((10 * V + PyFloat.digit_value c) / 10) with V
      by (apply (Z.div_unique _ 10 V (PyFloat.digit_value c)); lia).
    replace ((10 * V + PyFloat.digit_value c) mod 10)
      with (PyFloat.digit_value c)
      by (apply (Z.mod_unique _ 10 V (PyFloat.digit_value c)); lia).
    rewrite digit_char_value by assumption.
    subst V. rewrite IH; [reflexivity | exact H1 | left; exact Hz |].
    rewrite length_app in Hf. simpl in Hf. simpl. lia.
Qed.

Lemma decimal_value d r :
  all_digits (d :: r) -> Ascii.eqb d "0"%char = false \/ r = [] ->
  Locale.decimal (PyFloat.digits_value (d :: r)) = d :: r.
Proof.
  intros H Hz. unfold Locale.decimal.
  apply digits_of_value; [exact H | exact Hz |].
  destruct Hz as [Hz|Hz]; [|subst r; simpl; lia].
  pose proof (digits_value_lower d r H Hz) as L.
  assert (0 < 2 ^ Z.of_nat (length r)) by (apply Z.pow_pos_nonneg; lia).
  assert (Z.of_nat (length r) <= Z.log2 (PyFloat.digits_value (d :: r)))
    by (apply Z.log2_le_pow2; lia).
  simpl length. lia.
Qed.

(** *** Groups of three *)

Lemma dotted_snoc gs g : dotted (gs ++ [g]) = dotted gs ++ "."%char :: g.
Proof.
  unfold dotted. rewrite map_app, concat_app. simpl.
  rewrite app_nil_r. reflexivity.
Qed.

Lemma group3_rev_short (r : str) :
  (length r <= 3)%nat -> Locale.group3_rev r = r.
Proof.
  destruct r as [|a [|b [|c [|x r]]]]; simpl; intro H; try reflexivity. lia.
Qed.

Lemma group3_groups lead gs :
  (1 <= length lead <= 3)%nat ->
  Forall (fun g => length g = 3%nat /\ all_digits g) gs ->
  Locale.group3 (lead ++ concat gs) = lead ++ dotted gs.
Proof.
  intros Hl. induction gs as [|g gs IH] using rev_ind; intro Hg.
  - change (dotted []) with (@nil ascii). simpl concat.
    rewrite app_nil_r. unfold Locale.group3.
    rewrite group3_rev_short by (rewrite length_rev; lia).
    apply rev_involutive.
  - apply Forall_app in Hg. destruct Hg as [Hgs Hg].
    inversion Hg as [|? ? [Hg3 _] _]; subst.
    specialize (IH Hgs).
    rewrite concat_app, dotted_snoc. simpl concat. rewrite app_nil_r.
    destruct g as [|c1 [|c2 [|c3 [|? ?]]]]; try discriminate Hg3.
    unfold Locale.group3 in *.
    rewrite app_assoc, rev_app_distr.
    change (List.rev [c1; c2; c3]) with [c3; c2; c1].
    remember (List.rev (lead ++ concat gs)) as more.
    assert (Hmore : more <> []).
    { subst more. intro E. apply (f_equal (@length ascii)) in E.
      rewrite length_rev, length_app in E. simpl in E. lia. }
    destruct more as [|x more]; [congruence|].
    change (Locale.group3_rev ([c3; c2; c1] ++ x :: more))
      with (c3 :: c2 :: c1 :: "."%char :: Locale.group3_rev (x :: more)).
    change (c3 :: c2 :: c1 :: "."%char :: Locale.group3_rev (x :: more))
      with ([c3; c2; c1; "."%char] ++ Locale.group3_rev (x :: more)).
    rewrite rev_app_distr, IH.
    rewrite <- !app_assoc. reflexivity.
Qed.

(** *** The round trip *)

Lemma canonical_lead d lr gs cents :
  canonical ((d :: lr) ++ dotted gs ++ ","%char :: cents) ->
  all_digits lr ->
  Ascii.eqb d "0"%char = false \/ lr ++ concat gs = [].
Proof.
  intros Hc Hlr.
  destruct (Ascii.eqb d "0"%char) eqn:Hd; [|left; reflexivity].
  right. destruct lr as [|x lr].
  - destruct gs as [|g gs]; [reflexivity|].
    simpl in Hc. specialize (Hc Hd). discriminate Hc.
  - simpl in Hc. specialize (Hc Hd). subst x.
    inversion Hlr as [|? ? Hx _]. discriminate Hx.
Qed.

End RoundTrip.

(* ================================================================== *)
(** * The claims *)

Module Claims.

Import PatternFacts StrFacts AmountFacts TokenFacts DataPattern ExtractFacts
  LoopFacts RoundTrip.

(** C1.  For the candidate line "3.1.1.1.01.04 VENCIMENTO BASICO 1.234,56"
    the loop body, in the section, reaches the extractor with the line as it
    is, and the extractor adds exactly one row and no message: its
    classification is "3.1.1.1.01.04", its description "VENCIMENTO BASICO"
    and its amount the binary64 number that [1234.56] denotes, which is
    within half a unit in the last place of 123456/100.  After a header
    line, that row is all the loop collects. *)
Theorem C1_vencimento_basico (st : loop_state) :
  let line := py "3.1.1.1.01.04 VENCIMENTO BASICO 1.234,56" in
  let amount := S754_finite false 5429652300748554 (-42)%Z in
  scan true line = Candidate line
  /\ extract st line
     = with_row st (Row (py "3.1.1.1.01.04") (py "VENCIMENTO BASICO") amount)
  /\ PyFloat.float (py "1234.56") = Some amount
  /\ (Z.abs (100 * 5429652300748554 - 123456 * 2 ^ 42) <= 50)%Z
  /\ extracted_data
       (process_lines [] [py "CLSF.CONTABIL DENOMINACAO / RUBRICA"; line])
     = [Row (py "3.1.1.1.01.04") (py "VENCIMENTO BASICO") amount].
Proof.
  intros line amount.
  assert (Hm : Re.match_ data_pattern line
               = Some [(3, py "1.234,56"); (2, py "VENCIMENTO BASICO");
                       (1, py "3.1.1.1.01.04")])
    by (vm_compute; reflexivity).
  assert (Hp : parse_amount (py "1.234,56") = Some amount)
    by (vm_compute; reflexivity).
  split; [vm_compute; reflexivity|].
  split.
  - unfold extract. rewrite Hm.
    change (group 3 _) with (py "1.234,56").
    rewrite Hp.
    change (group 1 _) with (py "3.1.1.1.01.04").
    change (strip (group 2 _)) with (py "VENCIMENTO BASICO").
    reflexivity.
  - split; [vm_compute; reflexivity|].
    split; [vm_compute; discriminate | vm_compute; reflexivity].
Qed.

(** C2.  After the loop: with no row collected the function fails with the
    no-data error and hands back every message written so far, followed by
    that error; with at least one row, and a spreadsheet side that does not
    raise, it succeeds with the bytes made from exactly the rows collected.
    Success needs a row, and the messages of the loop are handed back
    whatever the outcome: no line fails the function by itself. *)
Theorem C2_aggregator (DataFrame : Type)
        (pd_DataFrame : list row -> str + DataFrame)
        (to_excel : DataFrame -> str + str)
        (info : list str) (lines : list str) :
  let st := process_lines info lines in
  let result := process_text DataFrame pd_DataFrame to_excel info lines in
  (extracted_data st = [] ->
   result = (false, msg_no_data, info_messages st ++ [msg_no_data]))
  /\ (forall df excel_bytes,
         extracted_data st <> [] ->
         pd_DataFrame (extracted_data st) = inr df ->
         to_excel df = inr excel_bytes ->
         exists closing,
           result = (true, excel_bytes, info_messages st ++ closing))
  /\ (fst (fst result) = true -> extracted_data st <> [])
  /\ (exists closing, snd result = info_messages st ++ closing).
Proof.
  intros st result. unfold result, process_text, finish. fold st.
  split; [|split; [|split]].
  - intro H. rewrite H. reflexivity.
  - intros df excel_bytes Hne Hdf Hx.
    destruct (extracted_data st) as [|r rows] eqn:E; [congruence|].
    rewrite Hdf, Hx. eexists. rewrite <- !app_assoc. reflexivity.
  - destruct (extracted_data st) as [|r rows] eqn:E; simpl;
      [discriminate | intros _; discriminate].
  - destruct (extracted_data st) as [|r rows] eqn:E.
    + eexists. reflexivity.
    + destruct (pd_DataFrame (r :: rows)) as [e|df].
      * eexists. simpl. rewrite <- !app_assoc. reflexivity.
      * destruct (to_excel df) as [e|bytes]; eexists; simpl;
          rewrite <- !app_assoc; reflexivity.
Qed.

(** C2 at two documents, with a spreadsheet side that always answers: a
    header and a data line; a header and a line that is no data line. *)
Lemma C2_witness :
  let header := py "CLSF.CONTABIL DENOMINACAO / RUBRICA VALOR / TOTAL" in
  let run := process_text (list row) inr (fun _ => inr (py "xlsx")) [] in
  fst (run [header; py "3.1.1.1.01.04 VENCIMENTO BASICO 1.234,56"])
  = (true, py "xlsx")
  /\ fst (run [header; py "TOTAL GERAL"]) = (false, msg_no_data).
Proof.
  intros header run.
  split.
  - destruct (C2_aggregator (list row) inr (fun _ => inr (py "xlsx")) []
                [header; py "3.1.1.1.01.04 VENCIMENTO BASICO 1.234,56"])
      as [_ [H _]].
    destruct (H _ (py "xlsx") ltac:(vm_compute; discriminate) eq_refl eq_refl)
      as [closing E].
    unfold run. rewrite E. reflexivity.
  - destruct (C2_aggregator (list row) inr (fun _ => inr (py "xlsx")) []
                [header; py "TOTAL GERAL"])
      as [H _].
    unfold run. rewrite H; [reflexivity | vm_compute; reflexivity].
Defined.

(** C3.  Over a run of lines none of which has both header markers, read
    with the flag down: no candidate line comes out of the scanner, whatever
    the lines hold, and the loop leaves rows, messages and flag as they were;
    what is scanned after them is scanned as if they had not been there but
    for the line count.  A line with both markers is itself no candidate: the
    scanner's verdict on it is [Header], with the flag down or up.  And the
    rows of any run of lines are those the extractor makes of its candidate
    lines: the loop hands the extractor nothing else. *)
Theorem C3_nothing_before_header (pre : list str) :
  Forall (fun l => is_header (strip l) = false) pre ->
  (forall n, candidates false n pre = [])
  /\ (forall n rest,
         candidates false n (pre ++ rest)
         = candidates false (n + length pre) rest)
  /\ (forall st,
         in_data_section st = false ->
         fold_left step pre st
         = LoopState (extracted_data st) false (info_messages st)
             (line_number st + length pre))
  /\ (forall b n hdr rest,
         is_header (strip hdr) = true ->
         scan b hdr = Header
         /\ candidates b n (hdr :: rest) = candidates true (S n) rest)
  /\ (forall st lines,
         extracted_data (fold_left step lines st)
         = extracted_data st
           ++ rows_of (candidates (in_data_section st) (line_number st) lines)).
Proof.
  intro H.
  split; [|split; [|split; [|split; [|intros st lines; apply run_candidates]]]].
  - intro n. rewrite <- (app_nil_r pre).
    rewrite candidates_outside by exact H. reflexivity.
  - intros n rest. apply candidates_outside. exact H.
  - intros st Hf. apply run_outside; assumption.
  - intros b n hdr rest Hh.
    assert (Hs : scan b hdr = Header) by (unfold scan; rewrite Hh; reflexivity).
    split; [exact Hs|]. simpl. rewrite Hs. reflexivity.
Qed.

(** C3 at two lines ahead of any header, the first one a data line in every
    other respect. *)
Lemma C3_witness :
  let pre := [py "3.1.1.1.01.04 VENCIMENTO BASICO 1.234,56"; py "DATA: x"] in
  candidates false 0 pre = []
  /\ fold_left step pre (LoopState [] false [] 0) = LoopState [] false [] 2.
Proof.
  intro pre.
  assert (H : Forall (fun l => is_header (strip l) = false) pre).
  { apply (Forall_by_bool _ (fun l => negb (is_header (strip l)))).
    - intros l. destruct (is_header (strip l)); simpl; congruence.
    - vm_compute. reflexivity. }
  destruct (C3_nothing_before_header pre H) as [H1 [_ [H3 _]]].
  split; [apply H1 | apply (H3 (LoopState [] false [] 0)); reflexivity].
Defined.

(** C4.  The flag starts down; a line never lowers it, nor does a run of
    lines; a line with both header markers raises it (or leaves it up),
    writes the "section started" message with its line number, and leaves
    the rows as they are; and no line removes a row or a message: the rows
    and the messages after any run of lines extend those before it. *)
Theorem C4_flag_monotonic :
  (forall info, in_data_section (process_lines info []) = false)
  /\ (forall st line,
         in_data_section st = true -> in_data_section (step st line) = true)
  /\ (forall st lines,
         in_data_section st = true ->
         in_data_section (fold_left step lines st) = true)
  /\ (forall st line,
         is_header (strip line) = true ->
         step st line
         = LoopState (extracted_data st) true
             (info_messages st ++ [msg_section (S (line_number st))])
             (S (line_number st)))
  /\ (forall st lines,
         exists rows msgs,
           extracted_data (fold_left step lines st) = extracted_data st ++ rows
           /\ info_messages (fold_left step lines st)
              = info_messages st ++ msgs).
Proof.
  split; [|split; [|split; [|split]]].
  - reflexivity.
  - intros st line H. rewrite step_flag, H. reflexivity.
  - intros st lines H. apply run_flag. exact H.
  - intros st line H. unfold step. rewrite H. reflexivity.
  - intros st lines.
    destruct (run_grows lines st) as [rows [msgs [Hd [Hm _]]]].
    exists rows, msgs. split; assumption.
Qed.

(** C4 at a document where the header comes back after a data line. *)
Lemma C4_witness :
  let header := py "CLSF.CONTABIL DENOMINACAO / RUBRICA" in
  let st := fold_left step [header; py "A B 1,00"] (LoopState [] false [] 0) in
  in_data_section st = true
  /\ in_data_section (step st (py "anything")) = true
  /\ extracted_data (step st header) = extracted_data st
  /\ info_messages (step st header) = info_messages st ++ [msg_section 3].
Proof.
  intros header st.
  destruct C4_flag_monotonic as [_ [H2 [_ [H4 _]]]].
  assert (Hf : in_data_section st = true) by (vm_compute; reflexivity).
  split; [exact Hf|].
  split; [apply H2; exact Hf|].
  rewrite (H4 st header) by (vm_compute; reflexivity).
  split; reflexivity.
Defined.

(** C5, as stated, fails.  "007,00" has the amount shape, and parsing it
    and writing the value back gives "7,00"; indeed "007,00" and "7,00" parse
    to the same value, so no way of writing values back returns both.  And
    "90.071.992.547.409,93", which has no needless zero, comes back as
    "90.071.992.547.409,94": binary64 does not hold that many digits. *)
Lemma C5_counterexample :
  amount_shape (py "007,00")
  /\ (exists v,
        parse_amount (py "007,00") = Some v
        /\ Locale.format_amount v = Some (py "7,00"))
  /\ py "7,00" <> py "007,00"
  /\ parse_amount (py "007,00") = parse_amount (py "7,00")
  /\ amount_shape (py "90.071.992.547.409,93")
  /\ (exists v,
        parse_amount (py "90.071.992.547.409,93") = Some v
        /\ Locale.format_amount v = Some (py "90.071.992.547.409,94")).
Proof.
  split; [apply amount_shape_check; vm_compute; reflexivity|].
  split; [eexists; split; vm_compute; reflexivity|].
  split; [vm_compute; discriminate|].
  split; [vm_compute; reflexivity|].
  split; [apply amount_shape_check; vm_compute; reflexivity|].
  eexists; split; vm_compute; reflexivity.
Qed.

(** C5, amended.  For every text of the amount shape (one to three digits,
    groups of a dot and three digits, a comma and two digits) that has no
    needless leading zero and whose value in hundredths is below 2^52,
    parsing it and writing the value back with the same locale rule gives
    the text itself. *)
Theorem C5_round_trip (s : str) :
  amount_shape s -> canonical s ->
  (PyFloat.digits_value (filter isdecimal s) < 2 ^ 52)%Z ->
  exists v, parse_amount s = Some v /\ Locale.format_amount v = Some s.
Proof.
  intros A Hcan Hb.
  pose proof (parse_amount_shape s A) as P.
  destruct A as [lead [gs [cents [E [Hlen [Hl [Hg [Hc2 Hc]]]]]]]].
  eexists. split; [exact P|].
  assert (Ef : filter isdecimal s = (lead ++ concat gs) ++ cents).
  { rewrite E, !filter_app. simpl.
    rewrite filter_dotted, !filter_digits by assumption.
    rewrite app_assoc. reflexivity. }
  rewrite Ef in *.
  destruct cents as [|c1 [|c2 [|? ?]]]; try discriminate Hc2.
  inversion Hc as [|? ? Hc1 Hc']; subst. inversion Hc' as [|? ? Hc2' _]; subst.
  destruct lead as [|d lr]; [simpl in Hlen; lia|].
  inversion Hl as [|? ? Hd Hlr]; subst.
  assert (Hi : all_digits ((d :: lr) ++ concat gs))
    by (apply Forall_app; split; [exact Hl | apply all_digits_concat, Hg]).
  pose proof (canonical_lead d lr gs [c1; c2] Hcan Hlr) as Hz.
  pose proof (digit_range c1 Hc1) as R1.
  pose proof (digit_range c2 Hc2') as R2.
  pose proof (digits_value_nonneg _ Hi) as I0.
  rewrite digits_value_two in *.
  remember (PyFloat.digits_value ((d :: lr) ++ concat gs)) as I.
  remember (PyFloat.digit_value c1) as v1.
  remember (PyFloat.digit_value c2) as v2.
  unfold Locale.format_amount.
  rewrite hundredths_of_ratio by lia.
  replace ((100 * I + 10 * v1 + v2) / 100)%Z with I
    by (apply (Z.div_unique _ 100 I (10 * v1 + v2)); lia).
  replace ((100 * I + 10 * v1 + v2) mod 100)%Z with (10 * v1 + v2)%Z
    by (apply (Z.mod_unique _ 100 I (10 * v1 + v2)); lia).
  replace ((10 * v1 + v2) / 10)%Z with v1
    by (apply (Z.div_unique _ 10 v1 v2); lia).
  replace ((100 * I + 10 * v1 + v2) mod 10)%Z with v2
    by (apply (Z.mod_unique _ 10 (10 * I + v1) v2); lia).
  subst I v1 v2.
  rewrite !digit_char_value by assumption.
  change ((d :: lr) ++ concat gs) with (d :: (lr ++ concat gs)) in *.
  rewrite decimal_value by assumption.
  change (d :: lr ++ concat gs) with ((d :: lr) ++ concat gs).
  rewrite group3_groups by assumption.
  simpl. rewrite <- app_assoc. reflexivity.
Qed.

(** C5 at "1.234.567,89". *)
Lemma C5_witness :
  exists v,
    parse_amount (py "1.234.567,89") = Some v
    /\ Locale.format_amount v = Some (py "1.234.567,89").
Proof.
  apply (C5_round_trip (py "1.234.567,89")).
  - apply amount_shape_check. vm_compute. reflexivity.
  - vm_compute. discriminate.
  - vm_compute. reflexivity.
Defined.

(** C6.  A candidate line (a trimmed line) that is not in the shape of a
    data line - a token, blanks, a description, blanks, and an amount of one
    to three digits, groups of a dot and three digits, a comma and two
    digits, at the end of the line - leaves the state of the loop as it is:
    no record, no message.  So does every line that ends in "12,5", and every
    line whose last token has a character that is no digit, dot or comma. *)
Theorem C6_no_match_is_silent :
  (forall st line,
      strip line = line -> ~ data_line line -> extract st line = st)
  /\ (forall st pre, extract st (pre ++ py "12,5") = st)
  /\ (forall st pre x tok,
         blank x -> solid tok ->
         Exists (fun c => isdecimal c = false
                          /\ c <> "."%char /\ c <> ","%char) tok ->
         extract st (pre ++ x :: tok) = st).
Proof.
  split; [|split].
  - intros st line Hstrip Hno.
    destruct (Re.match_ data_pattern line) as [m|] eqn:H;
      [|apply extract_no_match; exact H].
    exfalso. apply Hno.
    destruct (extract_match st line m H)
      as [g1 [ws1 [g2 [ws2 [g3 [tail
          [E [Ht [N1 [A1 [N2 [A2 [N4 [A4 [A5 _]]]]]]]]]]]]]]].
    assert (Hne : line <> []).
    { rewrite E. destruct g1; [congruence | discriminate]. }
    destruct (exists_last Hne) as [p [c Ec]].
    assert (Hc : isspace c = false).
    { apply (strip_last line p c). rewrite Hstrip. exact Ec. }
    assert (Htail : tail = []).
    { apply (matched_no_tail g1 ws1 g2 ws2 g3 tail p c);
        [congruence | exact Hc | exact Ht]. }
    subst tail. rewrite app_nil_r in E.
    exists g1, ws1, g2, ws2, g3. repeat (split; [assumption|]). exact A5.
  - intros st pre.
    destruct (Re.match_ data_pattern (pre ++ py "12,5")) as [m|] eqn:H;
      [|apply extract_no_match; exact H].
    exfalso.
    destruct (extract_match st _ m H)
      as [g1 [ws1 [g2 [ws2 [g3 [tail
          [E [Ht [N1 [A1 [N2 [A2 [N4 [A4 [A5 _]]]]]]]]]]]]]]].
    assert (Htail : tail = []).
    { apply (matched_no_tail g1 ws1 g2 ws2 g3 tail (pre ++ py "12,") "5"%char);
        [| reflexivity | exact Ht].
      rewrite <- E, <- app_assoc. reflexivity. }
    subst tail. rewrite app_nil_r in E.
    destruct (amount_ends g3 A5) as [d1 [mid [d2 [d3 [Eg [_ [Hd2 _]]]]]]].
    subst g3.
    assert (E3 : (pre ++ ["1"%char]) ++ ["2"; ","; "5"]%char
                 = (g1 ++ ws1 ++ g2 ++ ws2 ++ d1 :: mid) ++ [","%char; d2; d3]).
    { rewrite <- !app_assoc. exact E. }
    apply app_tail3 in E3. destruct E3 as [_ [E2 _]]. subst d2.
    discriminate Hd2.
  - intros st pre x tok Hx Htok Hbad.
    destruct (Re.match_ data_pattern (pre ++ x :: tok)) as [m|] eqn:H;
      [|apply extract_no_match; exact H].
    exfalso.
    assert (Hne : tok <> []).
    { intro; subst tok. inversion Hbad. }
    destruct (match_last_token _ m pre x tok H eq_refl Hx Htok Hne) as [_ A].
    apply amount_chars in A. rewrite Forall_forall in A.
    apply Exists_exists in Hbad. destruct Hbad as [c [Hin [Hc [Hdot Hcomma]]]].
    destruct (A c Hin) as [K|[K|K]]; congruence.
Qed.

(** C6 at concrete lines: "X a 12,5" is trimmed and no data line; a line that
    ends in "12,5"; and the line with the amount "X,XX". *)
Lemma C6_witness :
  let st := LoopState [] true [] 0 in
  extract st (py "X a 12,5") = st
  /\ extract st (py "3.1.1.1.01.05 DESCONTO " ++ py "12,5") = st
  /\ extract st (py "3.1.1.1.01.05 DESCONTO" ++ " "%char :: py "X,XX") = st.
Proof.
  intro st.
  destruct C6_no_match_is_silent as [Ha [Hb Hc]].
  split; [|split].
  - apply Ha; [vm_compute; reflexivity|].
    intro D. apply data_line_matched in D.
    + apply D. vm_compute. reflexivity.
    + apply no_newline_check. vm_compute. reflexivity.
  - apply Hb.
  - apply Hc.
    + vm_compute. reflexivity.
    + apply solid_check. vm_compute. reflexivity.
    + vm_compute. apply Exists_cons_hd.
      split; [reflexivity | split; discriminate].
Defined.

(** C7.  The noise test (lines 57-58) is the branch after the header test
    (line 52), so it sees the lines that were not taken as a header.  Inside
    the section, such a line that, trimmed, is empty, or holds "---", or
    starts with "***", or holds "SIAPE, GERENCIAL", or starts with "DATA:",
    is dropped in silence: only the line count moves, no message is written
    and nothing reaches the extractor.  Every other such line is handed to
    the extractor, trimmed. *)
Theorem C7_noise_inside_section (st : loop_state) (line : str) :
  in_data_section st = true ->
  is_header (strip line) = false ->
  let c := strip line in
  let noise :=
    c = []
    \/ contains (py "---") c = true
    \/ startswith c (py "***") = true
    \/ contains (py "SIAPE, GERENCIAL") c = true
    \/ startswith c (py "DATA:") = true in
  (noise -> scan true line = Discarded /\ step st line = advance st)
  /\ (~ noise ->
      scan true line = Candidate c /\ step st line = extract (advance st) c).
Proof.
  intros Hf Hh c noise.
  assert (Hn : is_noise c = true <-> noise) by apply is_noise_spec.
  rewrite step_scan, Hf. unfold scan. rewrite Hh. fold c. simpl.
  split; intro H.
  - apply Hn in H. rewrite H. split; reflexivity.
  - destruct (is_noise c) eqn:E.
    + exfalso. apply H. apply Hn. reflexivity.
    + split; reflexivity.
Qed.

(** C7 at a separator line and at a data line, both with blanks around. *)
Lemma C7_witness :
  let st := LoopState [] true [] 0 in
  step st (py "  ------  ") = LoopState [] true [] 1
  /\ scan true (py "  X  1,00 ") = Candidate (py "X  1,00").
Proof.
  intro st. split.
  - destruct (C7_noise_inside_section st (py "  ------  ") eq_refl
                ltac:(vm_compute; reflexivity)) as [H _].
    destruct H as [_ H]; [right; left; vm_compute; reflexivity|].
    rewrite H. reflexivity.
  - destruct (C7_noise_inside_section st (py "  X  1,00 ") eq_refl
                ltac:(vm_compute; reflexivity)) as [_ H].
    destruct H as [H _]; [|rewrite H; vm_compute; reflexivity].
    intros [K|[K|[K|[K|K]]]]; vm_compute in K; discriminate K.
Defined.

(** C8.  The amount parser succeeds on every token of the amount shape, and
    the third group of a match has that shape; so whenever the pattern
    matches, the extractor adds one row, and on no line at all does it write
    the invalid-amount message (or any other). *)
Theorem C8_parse_never_fails :
  (forall w, amount_shape w -> exists v, parse_amount w = Some v)
  /\ (forall st line m,
         Re.match_ data_pattern line = Some m ->
         amount_shape (group 3 m)
         /\ exists v,
              parse_amount (group 3 m) = Some v
              /\ extract st line
                 = with_row st (Row (group 1 m) (strip (group 2 m)) v))
  /\ (forall st line, info_messages (extract st line) = info_messages st).
Proof.
  split; [|split].
  - intros w H. eexists. apply parse_amount_shape. exact H.
  - intros st line m H.
    pose proof (data_pattern_inv line m H) as I.
    destruct I as [g1 [ws1 [g2 [ws2 [g3 [tail
      [_ [_ [_ [_ [_ [_ [_ [_ [_ [A5 Em]]]]]]]]]]]]]]]].
    subst m. change (group 3 _) with g3. split; [exact A5|].
    eexists. split; [apply parse_amount_shape; exact A5|].
    unfold extract. rewrite H.
    change (group 3 _) with g3. rewrite (parse_amount_shape g3 A5).
    reflexivity.
  - apply extract_messages.
Qed.

(** C8 at the token "1.234,56" and at a line that holds it. *)
Lemma C8_witness :
  (exists v, parse_amount (py "1.234,56") = Some v)
  /\ exists v,
       extract (LoopState [] true [] 1) (py "A B 1.234,56")
       = LoopState [Row (py "A") (py "B") v] true [] 1.
Proof.
  destruct C8_parse_never_fails as [H1 [H2 _]].
  split.
  - apply H1. apply amount_shape_check. vm_compute. reflexivity.
  - destruct (H2 (LoopState [] true [] 1) (py "A B 1.234,56")
                [(3, py "1.234,56"); (2, py "B"); (1, py "A")]
                ltac:(vm_compute; reflexivity)) as [_ [v [_ E]]].
    exists v. rewrite E. vm_compute. reflexivity.
Defined.

(** C9.  Every row the loop collects has an amount that is not below zero.
    A candidate line that is one token starting with "-", or whose last
    token starts with "-", adds no row; nor does an input line that is such
    a line once trimmed. *)
Theorem C9_amounts_non_negative :
  (forall info lines,
      Forall (fun r => SFleb (S754_zero false) (valor_float r) = true)
        (extracted_data (process_lines info lines)))
  /\ (forall st rest, solid rest -> extract st ("-"%char :: rest) = st)
  /\ (forall st pre x rest,
         blank x -> solid rest ->
         extract st (pre ++ x :: "-"%char :: rest) = st)
  /\ (forall st line pre x rest,
         strip line = "-"%char :: rest
         \/ (strip line = pre ++ x :: "-"%char :: rest /\ blank x) ->
         solid rest ->
         extracted_data (step st line) = extracted_data st).
Proof.
  destruct minus_unmatched as [M1 M2].
  split; [|split; [|split]].
  - intros info lines. unfold process_lines.
    destruct (run_grows lines
                (LoopState [] false
                   (info ++ [py "--- Processando linhas do texto extraído ---"])
                   0))
      as [rows [msgs [Hd [_ [Hn _]]]]].
    rewrite Hd. simpl. exact Hn.
  - intros st rest Hr. apply extract_no_match. apply M1. exact Hr.
  - intros st pre x rest Hx Hr. apply extract_no_match. apply M2; assumption.
  - intros st line pre x rest Hl Hr.
    apply step_unmatched.
    destruct Hl as [E|[E Hx]]; rewrite E; [apply M1 | apply M2]; assumption.
Qed.

(** C9 at the lines "-1,00" and "ABC DESC -1,00", and at the rows of a small
    document. *)
Lemma C9_witness :
  let st := LoopState [] true [] 0 in
  extract st (py "-1,00") = st
  /\ extract st (py "ABC DESC" ++ " "%char :: py "-1,00") = st
  /\ extracted_data (step st (py "  ABC DESC -1,00 ")) = [].
Proof.
  intro st.
  destruct C9_amounts_non_negative as [_ [H2 [H3 H4]]].
  split; [|split].
  - apply (H2 st (py "1,00")). apply solid_check. vm_compute. reflexivity.
  - apply (H3 st (py "ABC DESC") " "%char (py "1,00")).
    + vm_compute. reflexivity.
    + apply solid_check. vm_compute. reflexivity.
  - apply (H4 st _ (py "ABC DESC") " "%char (py "1,00")).
    + right. split; vm_compute; reflexivity.
    + apply solid_check. vm_compute. reflexivity.
Defined.

(** C10.  A candidate line made of a token, two or more blanks and an
    amount gives a row whose description is empty; the same token and amount
    with one blank between them give no row (and no message). *)
Theorem C10_empty_description :
  (forall st tok ws amount,
      tok <> [] -> solid tok -> 2 <= length ws -> Forall blank ws ->
      amount_shape amount ->
      exists v,
        parse_amount amount = Some v
        /\ extract st (tok ++ ws ++ amount) = with_row st (Row tok [] v))
  /\ (forall st tok x amount,
         solid tok -> blank x -> amount_shape amount ->
         extract st (tok ++ x :: amount) = st).
Proof.
  split.
  - intros st tok ws amount Ntok Htok Hlen Hws Hamt.
    destruct ws as [|x ws']; [simpl in Hlen; lia|].
    assert (Hne : ws' <> []) by (destruct ws'; [simpl in Hlen; lia | discriminate]).
    inversion Hws as [|? ? Hx Hws']; subst.
    destruct (blank_last ws' Hne Hws') as [mid [y [Ews [Hy Hmid]]]].
    assert (Hane : amount <> []).
    { destruct (amount_ends amount Hamt) as [d1 [? [? [? [E _]]]]].
      rewrite E. discriminate. }
    assert (El : tok ++ (x :: ws') ++ amount = tok ++ x :: mid ++ y :: amount).
    { rewrite Ews. simpl. rewrite <- app_assoc. reflexivity. }
    rewrite El.
    destruct (Re.match_ data_pattern (tok ++ x :: mid ++ y :: amount))
      as [m|] eqn:H.
    + destruct (match_three_tokens _ m tok x mid y amount H eq_refl
                  Htok Hx Hy (amount_solid amount Hamt) Hane)
        as [_ [g2 [w1 [w2 [Em [Emid [_ _]]]]]]].
      exists (PyFloat.of_ratio false
                (PyFloat.digits_value (filter isdecimal amount)) 100).
      pose proof (parse_amount_shape amount Hamt) as P.
      split; [exact P|].
      unfold extract. rewrite H. subst m.
      change (group 3 _) with amount. rewrite P.
      change (group 1 _) with tok. change (group 2 _) with g2.
      assert (Hg2 : Forall blank g2).
      { rewrite Emid in Hmid. apply Forall_app in Hmid.
        destruct Hmid as [_ Hmid]. apply Forall_app in Hmid.
        destruct Hmid as [Hmid _]. exact Hmid. }
      rewrite (strip_blank g2 Hg2). reflexivity.
    + exfalso. revert H.
      replace (tok ++ x :: mid ++ y :: amount)
        with (tok ++ [x] ++ [] ++ (mid ++ [y]) ++ amount)
        by (simpl; rewrite <- app_assoc; reflexivity).
      apply data_pattern_intro; try assumption.
      * discriminate.
      * constructor; [exact Hx | constructor].
      * constructor.
      * destruct mid; discriminate.
      * apply Forall_app. split; [exact Hmid | constructor; [exact Hy | constructor]].
  - intros st tok x amount Htok Hx Hamt.
    destruct (Re.match_ data_pattern (tok ++ x :: amount)) as [m|] eqn:H;
      [|apply extract_no_match; exact H].
    exfalso.
    pose proof (data_pattern_inv _ m H) as I.
    destruct I as [g1 [ws1 [g2 [ws2 [g3 [tail
      [El [_ [_ [A1 [N2 [A2 [_ [N4 [A4 _]]]]]]]]]]]]]]].
    destruct (blank_first ws1 N2 A2) as [x1 [ws1' [Ews1 [Hx1 _]]]].
    destruct (blank_first ws2 N4 A4) as [y [ws2' [Ews2 [Hy _]]]].
    assert (Eq : g1 ++ x1 :: (ws1' ++ g2 ++ ws2 ++ g3 ++ tail)
                 = tok ++ x :: amount).
    { rewrite El, Ews1. reflexivity. }
    destruct (first_token_unique _ _ _ _ _ _ Eq Hx1 Hx A1 Htok) as [_ Er].
    injection Er as Ex Ea.
    apply (solid_no_blank amount y (ws1' ++ g2) (ws2' ++ g3 ++ tail)
             (amount_solid amount Hamt) Hy).
    rewrite <- Ea, Ews2, <- app_assoc. reflexivity.
Qed.

(** C10 at "X  1.234,56" (two spaces) and "X 1.234,56" (one). *)
Lemma C10_witness :
  let st := LoopState [] true [] 0 in
  extract st (py "X  1.234,56")
  = with_row st (Row (py "X") [] (S754_finite false 5429652300748554 (-42)))
  /\ extract st (py "X 1.234,56") = st.
Proof.
  intro st.
  assert (A : amount_shape (py "1.234,56"))
    by (apply amount_shape_check; vm_compute; reflexivity).
  destruct C10_empty_description as [Ha Hb].
  split.
  - destruct (Ha st (py "X") (py "  ") (py "1.234,56")) as [v [P E]].
    + discriminate.
    + apply solid_check. vm_compute. reflexivity.
    + simpl. lia.
    + vm_compute. repeat constructor.
    + exact A.
    + assert (Ev : parse_amount (py "1.234,56")
                   = Some (S754_finite false 5429652300748554 (-42)))
        by (vm_compute; reflexivity).
      rewrite Ev in P. inversion P; subst v. exact E.
  - apply (Hb st (py "X") " "%char (py "1.234,56")).
    + apply solid_check. vm_compute. reflexivity.
    + vm_compute. reflexivity.
    + exact A.
Defined.

End Claims.

(* ================================================================== *)
(** * More of the code *)

(** ** More on strings *)

Module StrMore.

Import StrFacts TokenFacts.

Lemma rstrip_decompose s :
  exists w, s = rstrip s ++ w /\ Forall blank w.
Proof.
  unfold rstrip.
  destruct (lstrip_suffix (List.rev s)) as [w [E F]].
  exists (List.rev w). split.
  - apply (f_equal (@List.rev ascii)) in E.
    rewrite rev_involutive, rev_app_distr in E. exact E.
  - apply Forall_rev. exact F.
Qed.

(** [strip] takes blanks, and nothing else, off both ends. *)
Lemma strip_decompose s :
  exists w1 w2,
    s = w1 ++ strip s ++ w2 /\ Forall blank w1 /\ Forall blank w2.
Proof.
  destruct (lstrip_suffix s) as [w1 [E1 F1]].
  destruct (rstrip_decompose (lstrip s)) as [w2 [E2 F2]].
  exists w1, w2. unfold strip. rewrite <- E2. auto.
Qed.

Lemma ends_split (s : str) :
  s = [] \/ (exists a, s = [a]) \/ (exists a m b, s = a :: m ++ [b]).
Proof.
  destruct s as [|a s]; [left; reflexivity|]. right.
  destruct s as [|x s]; [left; exists a; reflexivity|]. right.
  assert (H : x :: s <> []) by discriminate.
  destruct (exists_last H) as [m [b E]]. rewrite E.
  exists a, m, b. reflexivity.
Qed.

Lemma strip_idem s : strip (strip s) = strip s.
Proof.
  destruct (ends_split (strip s)) as [E|[[a E]|[a [m [b E]]]]].
  - rewrite E. reflexivity.
  - rewrite E. apply strip_single. apply (strip_head s a []). exact E.
  - rewrite E. apply strip_trimmed.
    + apply (strip_head s a (m ++ [b])). exact E.
    + apply (strip_last s (a :: m) b). exact E.
Qed.

Lemma lstrip_app g w :
  lstrip (g ++ w)
  = match lstrip g with
    | [] => lstrip w
    | _ :: _ => lstrip g ++ w
    end.
Proof.
  induction g as [|x g IH]; simpl.
  - destruct (lstrip w); reflexivity.
  - destruct (isspace x); [exact IH | reflexivity].
Qed.

Lemma lstrip_blank_app w t : Forall blank w -> lstrip (w ++ t) = lstrip t.
Proof.
  intro H. rewrite lstrip_app, (lstrip_blank w H). reflexivity.
Qed.

Lemma rstrip_app_blank t w : Forall blank w -> rstrip (t ++ w) = rstrip t.
Proof.
  intro H. unfold rstrip. rewrite rev_app_distr.
  rewrite lstrip_blank_app by (apply Forall_rev; exact H). reflexivity.
Qed.

(** Blanks around a text do not change what [strip] makes of it. *)
Lemma strip_around w1 g w2 :
  Forall blank w1 -> Forall blank w2 -> strip (w1 ++ g ++ w2) = strip g.
Proof.
  intros H1 H2. unfold strip.
  rewrite lstrip_blank_app by exact H1.
  rewrite lstrip_app.
  destruct (lstrip g) as [|c r] eqn:E.
  - rewrite (lstrip_blank w2 H2). reflexivity.
  - apply rstrip_app_blank. exact H2.
Qed.

Lemma strip_all_blank s : Forall blank s -> strip s = [].
Proof. apply strip_blank. Qed.

(** *** [split] and [join] *)

Lemma split_nonempty sep s : split sep s <> [].
Proof.
  destruct s as [|c s]; simpl; [discriminate|].
  destruct (Ascii.eqb c sep); [discriminate|].
  destruct (split sep s); discriminate.
Qed.

Lemma join_split sep s : join sep (split sep s) = s.
Proof.
  induction s as [|c s IH]; simpl; [reflexivity|].
  destruct (Ascii.eqb c sep) eqn:E.
  - apply Ascii.eqb_eq in E. subst c.
    pose proof (split_nonempty sep s) as N.
    destruct (split sep s) as [|h t]; [congruence|].
    simpl in *. rewrite IH. reflexivity.
  - pose proof (split_nonempty sep s) as N.
    destruct (split sep s) as [|h t]; [congruence|].
    destruct t as [|h' t]; simpl in *; rewrite <- IH; reflexivity.
Qed.

Lemma split_no_sep sep s :
  Forall (Forall (fun c => c <> sep)) (split sep s).
Proof.
  induction s as [|c s IH]; simpl.
  - constructor; constructor.
  - destruct (Ascii.eqb c sep) eqn:E.
    + constructor; [constructor | exact IH].
    + apply Ascii.eqb_neq in E.
      destruct (split sep s) as [|h t]; [repeat constructor; exact E|].
      inversion IH; subst. constructor; [constructor; assumption | assumption].
Qed.

Lemma split_length sep s :
  length (split sep s)
  = S (length (filter (fun c => Ascii.eqb c sep) s)).
Proof.
  induction s as [|c s IH]; simpl; [reflexivity|].
  destruct (Ascii.eqb c sep); simpl; [rewrite IH; reflexivity|].
  pose proof (split_nonempty sep s) as N.
  destruct (split sep s) as [|h t]; [congruence | exact IH].
Qed.

(** *** [startswith] and [in] *)

Lemma startswith_prefix s p :
  startswith s p = true <-> exists r, s = p ++ r.
Proof.
  revert s. induction p as [|a p IH]; intro s; simpl.
  - split; [intros _; exists s; reflexivity | intros _; destruct s; reflexivity].
  - destruct s as [|b s]; simpl.
    + split; [discriminate | intros [r E]; discriminate E].
    + rewrite andb_true_iff, Ascii.eqb_eq, IH. split.
      * intros [E [r Er]]. subst. exists r. reflexivity.
      * intros [r E]. inversion E; subst. split; [reflexivity|].
        exists r. reflexivity.
Qed.

Lemma contains_infix sub s :
  contains sub s = true <-> exists a b, s = a ++ sub ++ b.
Proof.
  induction s as [|c s IH].
  - change (contains sub []) with (startswith [] sub || false).
    rewrite orb_false_r, startswith_prefix. split.
    + intros [r E]. exists [], r. exact E.
    + intros [a [b E]]. destruct a; [exists b; exact E | discriminate E].
  - change (contains sub (c :: s))
      with (startswith (c :: s) sub || contains sub s).
    rewrite orb_true_iff, startswith_prefix, IH. split.
    + intros [[r E]|[a [b E]]].
      * exists [], r. exact E.
      * exists (c :: a), b. rewrite E. reflexivity.
    + intros [a [b E]]. destruct a as [|x a].
      * left. exists b. exact E.
      * right. inversion E; subst. exists a, b. reflexivity.
Qed.

(** An occurrence of a text that starts with no blank does not start in
    blanks ahead of it. *)
Lemma infix_after_blanks w1 :
  forall (r a m b : str) x m',
    w1 ++ r = a ++ m ++ b -> m = x :: m' -> isspace x = false ->
    Forall blank w1 ->
    exists a', a = w1 ++ a'.
Proof.
  induction w1 as [|c w1 IH]; intros r a m b x m' E Em Hx Hw.
  - exists a. reflexivity.
  - inversion Hw as [|? ? Hc Hw']; subst.
    destruct a as [|c' a]; simpl in E.
    + inversion E; subst. unfold blank in Hc. congruence.
    + inversion E; subst.
      destruct (IH r a (x :: m') b x m' ltac:(assumption) eq_refl Hx Hw')
        as [a' Ea].
      exists a'. rewrite Ea. reflexivity.
Qed.

(** Nor does one that ends with no blank end in blanks behind it. *)
Lemma infix_before_blanks w2 (r a m b p : str) y :
  r ++ w2 = a ++ m ++ b -> m = p ++ [y] -> isspace y = false ->
  Forall blank w2 ->
  exists b', b = b' ++ w2.
Proof.
  intros E Em Hy Hw.
  apply (f_equal (@List.rev ascii)) in E.
  rewrite !rev_app_distr in E. rewrite <- app_assoc in E.
  destruct (infix_after_blanks (List.rev w2) (List.rev r) (List.rev b)
              (List.rev m) (List.rev a) y (List.rev p)) as [b' Eb].
  - exact E.
  - rewrite Em, rev_app_distr. reflexivity.
  - exact Hy.
  - apply Forall_rev. exact Hw.
  - exists (List.rev b').
    apply (f_equal (@List.rev ascii)) in Eb.
    rewrite rev_involutive, rev_app_distr, rev_involutive in Eb. exact Eb.
Qed.

(** Whether a text that neither starts nor ends with a blank occurs in a
    line does not depend on the blanks around the line. *)
Lemma contains_strip m x m' p y l :
  m = x :: m' -> m = p ++ [y] -> isspace x = false -> isspace y = false ->
  contains m (strip l) = contains m l.
Proof.
  intros Ex Ey Hx Hy.
  destruct (strip_decompose l) as [w1 [w2 [El [H1 H2]]]].
  apply eq_iff_eq_true. rewrite !contains_infix. split.
  - intros [a [b E]]. exists (w1 ++ a), (b ++ w2).
    rewrite El at 1. rewrite E, <- !app_assoc. reflexivity.
  - intros [a [b E]].
    rewrite El in E.
    destruct (infix_after_blanks w1 _ a m b x m' E Ex Hx H1) as [a' Ea].
    subst a. rewrite <- app_assoc in E. apply app_inv_head in E.
    destruct (infix_before_blanks w2 (strip l) a' m b p y E Ey Hy H2)
      as [b' Eb].
    subst b. exists a', b'.
    rewrite !app_assoc in E. apply app_inv_tail in E.
    rewrite E, <- app_assoc. reflexivity.
Qed.

(** *** [replace] with a text for [old] *)

Lemma replace_from_skip old new k s :
  replace_from old new k s = replace_from old new 0 (skipn k s).
Proof.
  revert s. induction k as [|k IH]; intro s; [reflexivity|].
  destruct s as [|c s]; [reflexivity|]. simpl. apply IH.
Qed.

Lemma replace_absent_str old new s :
  contains old s = false -> replace_str old new s = s.
Proof.
  unfold replace_str. induction s as [|c s IH]; intro H; [reflexivity|].
  change (contains old (c :: s))
    with (startswith (c :: s) old || contains old s) in H.
  apply orb_false_iff in H. destruct H as [H1 H2].
  simpl. simpl in H1. rewrite H1, (IH H2). reflexivity.
Qed.

(** An occurrence cannot reach over a character that is not in the tail of
    [old]. *)
Lemma startswith_no_straddle s t1 t (old : str) :
  ~ In t1 old -> old <> [] ->
  startswith (s ++ t1 :: t) old = startswith s old.
Proof.
  revert old. induction s as [|c s IH]; intros old Hin Hne.
  - destruct old as [|a old]; [congruence|]. simpl.
    destruct (Ascii.eqb a t1) eqn:E; [|reflexivity].
    apply Ascii.eqb_eq in E. subst a. exfalso. apply Hin. left. reflexivity.
  - destruct old as [|a old]; [congruence|]. simpl.
    destruct old as [|a' old].
    + destruct (s ++ t1 :: t), s; reflexivity.
    + rewrite IH; [reflexivity | | discriminate].
      intro K. apply Hin. right. exact K.
Qed.

Lemma replace_before old new a old' stem t1 t :
  old = a :: old' -> ~ In t1 old' ->
  contains old stem = false ->
  replace_str old new (stem ++ t1 :: t)
  = stem ++ replace_str old new (t1 :: t).
Proof.
  intros Eo Hin. unfold replace_str.
  induction stem as [|c stem IH]; intro H; [reflexivity|].
  change (contains old (c :: stem))
    with (startswith (c :: stem) old || contains old stem) in H.
  apply orb_false_iff in H. destruct H as [H1 H2].
  change ((c :: stem) ++ t1 :: t) with (c :: (stem ++ t1 :: t)).
  assert (H1' : startswith (c :: stem ++ t1 :: t) old = false).
  { subst old. simpl in *.
    destruct (Ascii.eqb a c); [|reflexivity]. simpl in *.
    destruct old' as [|a' old'].
    - destruct stem; discriminate H1.
    - rewrite startswith_no_straddle; [exact H1 | exact Hin | discriminate]. }
  change (replace_from old new 0 (c :: (stem ++ t1 :: t)))
    with (if startswith (c :: stem ++ t1 :: t) old
          then new ++ replace_from old new (length old - 1) (stem ++ t1 :: t)
          else c :: replace_from old new 0 (stem ++ t1 :: t)).
  rewrite H1', (IH H2). reflexivity.
Qed.

(** The two ways of writing a one-character replacement agree. *)
Lemma replace_str_char old new s :
  replace_str [old] new s = replace old new s.
Proof.
  unfold replace_str. induction s as [|c s IH]; [reflexivity|].
  simpl. rewrite Ascii.eqb_sym.
  destruct (Ascii.eqb c old); rewrite IH.
  - destruct s; reflexivity.
  - reflexivity.
Qed.

End StrMore.

(** ** More on the loops *)

Module CodeMore.

Import StrFacts AmountFacts TokenFacts DataPattern ExtractFacts LoopFacts
  StrMore.

(** What one line adds to the messages. *)
Lemma step_messages st l :
  info_messages (step st l)
  = info_messages st
    ++ (if is_header (strip l) then [msg_section (S (line_number st))]
        else []).
Proof.
  rewrite step_scan. unfold scan.
  destruct (is_header (strip l)); [reflexivity|].
  rewrite app_nil_r.
  destruct (negb (in_data_section st) || is_noise (strip l)); [reflexivity|].
  rewrite extract_messages. reflexivity.
Qed.

Lemma step_line_number st l : line_number (step st l) = S (line_number st).
Proof.
  destruct (step_grows st l) as [_ [_ [_ [_ [_ [_ [_ H]]]]]]]. exact H.
Qed.

Lemma run_messages lines :
  forall st,
    info_messages (fold_left step lines st)
    = info_messages st ++ section_messages (line_number st) lines.
Proof.
  induction lines as [|l lines IH]; intro st; simpl.
  - rewrite app_nil_r. reflexivity.
  - rewrite IH, step_messages, step_line_number, <- app_assoc. reflexivity.
Qed.

(** Inside the section a line adds its own rows, whatever came before. *)
Lemma step_rows_inside st l :
  in_data_section st = true ->
  extracted_data (step st l) = extracted_data st ++ rows_inside l.
Proof.
  intro Hf. unfold rows_inside. rewrite !step_scan, Hf. simpl in_data_section.
  destruct (scan true l) as [| |c]; simpl.
  - rewrite app_nil_r. reflexivity.
  - rewrite app_nil_r. reflexivity.
  - destruct (extract_rows (advance st) (advance (LoopState [] true [] 0)) c)
      as [rows [E1 E2]].
    rewrite E1, E2. reflexivity.
Qed.

Lemma run_rows_inside lines :
  forall st,
    in_data_section st = true ->
    extracted_data (fold_left step lines st)
    = extracted_data st ++ flat_map rows_inside lines.
Proof.
  induction lines as [|l lines IH]; intros st Hf; simpl.
  - rewrite app_nil_r. reflexivity.
  - rewrite IH by (rewrite step_flag, Hf; reflexivity).
    rewrite step_rows_inside by exact Hf.
    rewrite <- app_assoc. reflexivity.
Qed.

Lemma rows_inside_one l : length (rows_inside l) <= 1.
Proof.
  unfold rows_inside.
  destruct (step_grows (LoopState [] true [] 0) l)
    as [rows [_ [E [_ [H _]]]]].
  rewrite E. exact H.
Qed.

(** A matched, trimmed line has the shape of a data line. *)
Lemma matched_data_line line m :
  strip line = line -> Re.match_ data_pattern line = Some m ->
  data_line line.
Proof.
  intros Hstrip H.
  destruct (extract_match (LoopState [] true [] 0) line m H)
    as [g1 [ws1 [g2 [ws2 [g3 [tail
        [E [Ht [N1 [A1 [N2 [A2 [N4 [A4 [A5 _]]]]]]]]]]]]]]].
  assert (Hne : line <> []).
  { rewrite E. destruct g1; [congruence | discriminate]. }
  destruct (exists_last Hne) as [p [c Ec]].
  assert (Hc : isspace c = false).
  { apply (strip_last line p c). rewrite Hstrip. exact Ec. }
  assert (Htail : tail = []).
  { apply (matched_no_tail g1 ws1 g2 ws2 g3 tail p c);
      [congruence | exact Hc | exact Ht]. }
  subst tail. rewrite app_nil_r in E.
  exists g1, ws1, g2, ws2, g3. repeat (split; [assumption|]). exact A5.
Qed.

(** What every row of the extractor looks like. *)
Lemma extract_row_fields st c :
  exists rows,
    extracted_data (extract st c) = extracted_data st ++ rows
    /\ Forall
         (fun r =>
            classificacao r <> [] /\ solid (classificacao r)
            /\ strip (denominacao r) = denominacao r
            /\ Forall (fun x => x <> newline) (denominacao r))
         rows.
Proof.
  destruct (Re.match_ data_pattern c) as [m|] eqn:H.
  - pose proof (data_pattern_inv c m H) as I.
    destruct I as [g1 [ws1 [g2 [ws2 [g3 [tail
      [E [Ht [N1 [A1 [N2 [A2 [A3 [N4 [A4 [A5 Em]]]]]]]]]]]]]]]].
    unfold extract. rewrite H. subst m.
    change (group 3 _) with g3. change (group 2 _) with g2.
    change (group 1 _) with g1.
    rewrite (parse_amount_shape g3 A5).
    eexists [_]. split; [reflexivity|].
    constructor; [|constructor]. simpl.
    split; [exact N1|]. split; [exact A1|]. split; [apply strip_idem|].
    destruct (strip_decompose g2) as [w1 [w2 [Eg _]]].
    rewrite Eg in A3. apply Forall_app in A3. destruct A3 as [_ A3].
    apply Forall_app in A3. destruct A3 as [A3 _]. exact A3.
  - rewrite extract_no_match by exact H.
    exists []. rewrite app_nil_r. split; [reflexivity | constructor].
Qed.

(** *** The page loop (lines 24-30) *)

Lemma pages_lines pages :
  Forall returns pages ->
  forall i n lines msgs,
    fst (extract_pages i n pages lines msgs)
    = inr (lines ++ flat_map page_lines pages).
Proof.
  induction 1 as [|page pages Hp Hps IH]; intros i n lines msgs; simpl.
  - rewrite app_nil_r. reflexivity.
  - destruct page as [[[|c text]|]|e]; simpl in Hp; try contradiction.
    + rewrite IH. reflexivity.
    + rewrite IH, <- app_assoc. reflexivity.
    + rewrite IH. reflexivity.
Qed.

Lemma pages_raise before :
  Forall returns before ->
  forall e after i n lines msgs,
    fst (extract_pages i n (before ++ PageRaises e :: after) lines msgs)
    = inl e.
Proof.
  induction 1 as [|page pages Hp Hps IH]; intros e after i n lines msgs; simpl.
  - reflexivity.
  - destruct page as [[[|c text]|]|e']; simpl in Hp; try contradiction;
      apply IH.
Qed.

(** The page loop only adds messages. *)
Lemma pages_messages pages :
  forall i n lines msgs,
    exists more, snd (extract_pages i n pages lines msgs) = msgs ++ more.
Proof.
  induction pages as [|page pages IH]; intros i n lines msgs; simpl.
  - exists []. rewrite app_nil_r. reflexivity.
  - destruct page as [[[|c text]|]|e];
      try (match goal with
           | |- context [extract_pages ?i' ?n' pages ?l' ?m'] =>
               destruct (IH i' n' l' m') as [more E]; rewrite E
           end;
           eexists; rewrite <- !app_assoc; reflexivity).
    eexists. simpl. reflexivity.
Qed.

Lemma textless_returns page : textless page -> returns page.
Proof. destruct page as [[[|? ?]|]|e]; simpl; tauto. Qed.

Lemma textless_no_lines pages :
  Forall textless pages -> flat_map page_lines pages = [].
Proof.
  induction 1 as [|page pages Hp Hps IH]; simpl; [reflexivity|].
  rewrite IH.
  destruct page as [[[|? ?]|]|e]; simpl in Hp; try contradiction; reflexivity.
Qed.

Lemma page_lines_no_newline page :
  Forall (Forall (fun c => c <> newline)) (page_lines page).
Proof.
  destruct page as [[[|c text]|]|e]; simpl; try constructor.
  apply (split_no_sep newline (c :: text)).
Qed.

(** *** The log *)

Lemma extract_lines_log pdf msgs :
  exists more, snd (extract_lines pdf msgs) = msgs ++ more.
Proof.
  destruct pdf as [e|pages]; simpl.
  - exists []. rewrite app_nil_r. reflexivity.
  - match goal with
    | |- context [extract_pages ?i ?n pages ?l ?m] =>
        destruct (pages_messages pages i n l m) as [more E]; rewrite E
    end.
    eexists. rewrite <- app_assoc. reflexivity.
Qed.

Section Finish.

Variable DataFrame : Type.
Variable pd_DataFrame : list row -> str + DataFrame.
Variable to_excel : DataFrame -> str + str.

(** After the loop (lines 71-113): the messages so far are kept; a failure
    ends the log with its error, a success with the closing line. *)
Lemma finish_log st :
  let r := finish DataFrame pd_DataFrame to_excel st in
  (exists rest, snd r = info_messages st ++ rest)
  /\ (fst (fst r) = false -> exists front, snd r = front ++ [snd (fst r)])
  /\ (fst (fst r) = true -> exists front, snd r = front ++ [msg_success]).
Proof.
  unfold finish.
  destruct (extracted_data st) as [|r0 rows].
  - simpl. split; [eexists; reflexivity|].
    split; [intros _; eexists; reflexivity | discriminate].
  - destruct (pd_DataFrame (r0 :: rows)) as [e|df].
    + simpl. split; [eexists; rewrite <- app_assoc; reflexivity|].
      split; [intros _; eexists; reflexivity | discriminate].
    + destruct (to_excel df) as [e|bytes]; simpl.
      * split; [eexists; rewrite <- !app_assoc; reflexivity|].
        split; [intros _; eexists; reflexivity | discriminate].
      * split; [eexists; rewrite <- !app_assoc; reflexivity|].
        split; [discriminate | intros _; eexists; reflexivity].
Qed.

End Finish.

Lemma rows_of_fields cands :
  Forall
    (fun r =>
       classificacao r <> [] /\ solid (classificacao r)
       /\ strip (denominacao r) = denominacao r
       /\ Forall (fun x => x <> newline) (denominacao r))
    (rows_of cands).
Proof.
  unfold rows_of. induction cands as [|c cands IH]; simpl; [constructor|].
  apply Forall_app. split; [|exact IH].
  destruct (extract_row_fields (LoopState [] true [] (fst c)) (snd c))
    as [rows [E F]].
  rewrite E. exact F.
Qed.

(** The float product [v * 100] is another matter than the exact one of
    [Locale.hundredths]: it is rounded to binary64 again.  At
    "40.000.000.000.000,05", below 2^52 hundredths, the exact product rounds
    to 4000000000000005 and the float product is 4000000000000004.5, which
    [round] takes to 4000000000000004. *)
Lemma float_product_rounds_twice :
  exists v,
    parse_amount (py "40.000.000.000.000,05") = Some v
    /\ Locale.hundredths v = Some (false, 4000000000000005%Z)
    /\ SFmul 53 1024 v (S754_finite false 100 0)
       = S754_finite false 8000000000000009 (-1).
Proof.
  eexists. split; [vm_compute; reflexivity|].
  split; vm_compute; reflexivity.
Qed.

End CodeMore.

(* ================================================================== *)
(** * Further properties of the code *)

Module Extras.

Import StrFacts AmountFacts TokenFacts DataPattern ExtractFacts LoopFacts
  PatternFacts RoundTrip StrMore CodeMore.

(** X1.  How the extractor reads a line (lines 60-67): for a line made of a
    token without blanks, a blank, any text without a newline, a blank and
    an amount, the row has the token for its classification, the text
    between, stripped, for its description, and the parsed amount. *)
Theorem X1_extract_reads_three_fields st tok x mid y amount :
  tok <> [] -> solid tok -> blank x -> blank y ->
  Forall (fun c => c <> newline) mid -> amount_shape amount ->
  exists v,
    parse_amount amount = Some v
    /\ extract st (tok ++ x :: mid ++ y :: amount)
       = with_row st (Row tok (strip mid) v).
Proof.
  intros Ntok Htok Hx Hy Hmid Hamt.
  assert (Hane : amount <> []).
  { destruct (amount_ends amount Hamt) as [d1 [? [? [? [E _]]]]].
    rewrite E. discriminate. }
  pose proof (parse_amount_shape amount Hamt) as P.
  eexists. split; [exact P|].
  destruct (Re.match_ data_pattern (tok ++ x :: mid ++ y :: amount))
    as [m|] eqn:H.
  - destruct (match_three_tokens _ m tok x mid y amount H eq_refl
                Htok Hx Hy (amount_solid amount Hamt) Hane)
      as [_ [g2 [w1 [w2 [Em [Emid [Hw1 Hw2]]]]]]].
    unfold extract. rewrite H. subst m.
    change (group 3 _) with amount. rewrite P.
    change (group 1 _) with tok. change (group 2 _) with g2.
    rewrite Emid, strip_around by assumption. reflexivity.
  - exfalso. revert H.
    change (tok ++ x :: mid ++ y :: amount)
      with (tok ++ [x] ++ mid ++ [y] ++ amount).
    apply data_pattern_intro; try assumption.
    + discriminate.
    + constructor; [exact Hx | constructor].
    + discriminate.
    + constructor; [exact Hy | constructor].
Qed.

(** X1 at "33 X  Y 0,10": the description keeps its inner blanks. *)
Lemma X1_witness :
  exists v,
    parse_amount (py "0,10") = Some v
    /\ extract (LoopState [] true [] 5)
         (py "33" ++ " "%char :: py "X  Y" ++ " "%char :: py "0,10")
       = LoopState [Row (py "33") (py "X  Y") v] true [] 5.
Proof.
  destruct (X1_extract_reads_three_fields (LoopState [] true [] 5)
              (py "33") " "%char (py "X  Y") " "%char (py "0,10"))
    as [v [P E]].
  - discriminate.
  - apply solid_check. vm_compute. reflexivity.
  - vm_compute. reflexivity.
  - vm_compute. reflexivity.
  - apply no_newline_check. vm_compute. reflexivity.
  - apply amount_shape_check. vm_compute. reflexivity.
  - exists v. split; [exact P|]. rewrite E. vm_compute. reflexivity.
Defined.

(** X2.  On a line without a newline (as [split] gives them), the pattern
    of line 44 matches the trimmed line exactly when it has the shape of a
    data line: a token, blanks, a description, blanks and an amount at the
    end. *)
Theorem X2_pattern_matches_data_lines line :
  Forall (fun c => c <> newline) line ->
  (Re.match_ data_pattern (strip line) <> None <-> data_line (strip line)).
Proof.
  intro Hnl. split.
  - intro H. destruct (Re.match_ data_pattern (strip line)) as [m|] eqn:E;
      [|congruence].
    apply (matched_data_line (strip line) m); [apply strip_idem | exact E].
  - intro D. apply data_line_matched; [exact D|].
    destruct (strip_decompose line) as [w1 [w2 [El _]]].
    rewrite El in Hnl. apply Forall_app in Hnl. destruct Hnl as [_ Hnl].
    apply Forall_app in Hnl. destruct Hnl as [Hnl _]. exact Hnl.
Qed.

(** X2 at "  A B 1,00 ". *)
Lemma X2_witness : data_line (strip (py "  A B 1,00 ")).
Proof.
  apply (X2_pattern_matches_data_lines (py "  A B 1,00 ")).
  - apply no_newline_check. vm_compute. reflexivity.
  - vm_compute. discriminate.
Defined.

(** X3.  What the loop writes to the log (lines 46-69): after the messages
    it was given, the "processing" line, then one "section started" message
    for each line that has both header markers, with that line's number,
    and nothing for any other line; and it counts every line. *)
Theorem X3_loop_log info lines :
  info_messages (process_lines info lines)
  = info ++ [py "--- Processando linhas do texto extraído ---"]
    ++ section_messages 0 lines
  /\ line_number (process_lines info lines) = length lines.
Proof.
  unfold process_lines. split.
  - rewrite run_messages. simpl. rewrite <- app_assoc. reflexivity.
  - destruct (run_grows lines
                (LoopState [] false
                   (info ++ [py "--- Processando linhas do texto extraído ---"])
                   0)) as [_ [_ [_ [_ [_ H]]]]].
    exact H.
Qed.

(** X4.  The rows of a document (lines 48-69): with the first header line
    after lines that have none, the rows collected are those of the lines
    after that header, each line giving its own rows (at most one) whatever
    the other lines are, in the order of the lines. *)
Theorem X4_rows_line_by_line info pre hdr rest :
  Forall (fun l => is_header (strip l) = false) pre ->
  is_header (strip hdr) = true ->
  extracted_data (process_lines info (pre ++ hdr :: rest))
  = flat_map rows_inside rest
  /\ Forall (fun l => length (rows_inside l) <= 1) rest
  /\ length (flat_map rows_inside rest) <= length rest.
Proof.
  intros Hpre Hh. split; [|split].
  - unfold process_lines. rewrite fold_left_app.
    rewrite (run_outside pre Hpre) by reflexivity.
    simpl fold_left. unfold step at 2. rewrite Hh.
    rewrite run_rows_inside by reflexivity. reflexivity.
  - apply Forall_forall. intros l _. apply rows_inside_one.
  - induction rest as [|l rest IH]; simpl; [lia|].
    rewrite length_app. pose proof (rows_inside_one l). lia.
Qed.

(** X4 at a document with a data line ahead of the header and two after. *)
Lemma X4_witness :
  let header := py "CLSF.CONTABIL DENOMINACAO / RUBRICA" in
  extracted_data
    (process_lines []
       ([py "A B 1,00"] ++ header :: [py "C D 2,00"; py "E F 3,00"]))
  = rows_inside (py "C D 2,00") ++ rows_inside (py "E F 3,00").
Proof.
  intro header.
  destruct (X4_rows_line_by_line [] [py "A B 1,00"] header
              [py "C D 2,00"; py "E F 3,00"]) as [E _].
  - constructor; [vm_compute; reflexivity | constructor].
  - vm_compute. reflexivity.
  - rewrite E. cbn [flat_map]. rewrite app_nil_r. reflexivity.
Defined.

(** X5.  The page loop (lines 24-30): when no page raises, the lines are
    those of the pages with a text, page after page, each text cut at its
    newlines; a page without text adds none.  No line holds a newline. *)
Theorem X5_page_loop pages msgs :
  Forall returns pages ->
  fst (extract_lines (Opened pages) msgs) = inr (flat_map page_lines pages)
  /\ Forall (Forall (fun c => c <> newline)) (flat_map page_lines pages).
Proof.
  intro H. split.
  - simpl. rewrite pages_lines by exact H. reflexivity.
  - apply Forall_forall. intros l Hl. apply in_flat_map in Hl.
    destruct Hl as [page [_ Hl]].
    pose proof (page_lines_no_newline page) as F.
    rewrite Forall_forall in F. apply F. exact Hl.
Qed.

(** X5 at three pages, the second without text. *)
Lemma X5_witness :
  fst (extract_lines
         (Opened [PageText (Some ("a"%char :: newline :: py "b"));
                  PageText None; PageText (Some (py "c"))]) [])
  = inr [py "a"; py "b"; py "c"].
Proof.
  destruct (X5_page_loop
              [PageText (Some ("a"%char :: newline :: py "b"));
               PageText None; PageText (Some (py "c"))] []) as [E _].
  - repeat constructor.
  - rewrite E. vm_compute. reflexivity.
Defined.

(** X6.  A file none of whose pages has a text, or that has no page
    (lines 27-39): the function fails with "Erro: Nenhum texto foi extraído
    do PDF.", which is also the last message. *)
Theorem X6_textless_pdf (DataFrame : Type)
        (pd_DataFrame : list row -> str + DataFrame)
        (to_excel : DataFrame -> str + str) pages :
  Forall textless pages ->
  exists log,
    processar_pdf_para_streamlit DataFrame pd_DataFrame to_excel
      (Opened pages)
    = (false, msg_no_text, log ++ [msg_no_text]).
Proof.
  intro H. unfold processar_pdf_para_streamlit.
  assert (Hr : Forall returns pages)
    by (eapply Forall_impl; [apply textless_returns | exact H]).
  pose proof (pages_lines pages Hr 0 (length pages) []) as E.
  simpl extract_lines.
  match goal with
  | |- context [extract_pages 0 ?n pages [] ?m] =>
      specialize (E m); destruct (extract_pages 0 n pages [] m) as [r log]
  end.
  simpl in E. rewrite (textless_no_lines pages H) in E. subst r.
  exists log. reflexivity.
Qed.

(** X6 at a file of two pages, one returning [None] and one the empty
    text. *)
Lemma X6_witness :
  fst (processar_pdf_para_streamlit (list row) inr (fun _ => inr [])
         (Opened [PageText None; PageText (Some [])]))
  = (false, msg_no_text).
Proof.
  destruct (X6_textless_pdf (list row) inr (fun _ => inr [])
              [PageText None; PageText (Some [])]) as [log E].
  - repeat constructor.
  - rewrite E. reflexivity.
Defined.

(** X7.  When opening the file raises, or a page raises after pages that
    did not (lines 20-34), the function fails with the extraction error
    that quotes the exception, whatever the pages after it are. *)
Theorem X7_extraction_error (DataFrame : Type)
        (pd_DataFrame : list row -> str + DataFrame)
        (to_excel : DataFrame -> str + str) :
  (forall e,
      fst (processar_pdf_para_streamlit DataFrame pd_DataFrame to_excel
             (OpenRaises e))
      = (false, msg_extraction e))
  /\ (forall before e after,
         Forall returns before ->
         fst (processar_pdf_para_streamlit DataFrame pd_DataFrame to_excel
                (Opened (before ++ PageRaises e :: after)))
         = (false, msg_extraction e)).
Proof.
  split.
  - intro e. reflexivity.
  - intros before e after H. unfold processar_pdf_para_streamlit.
    simpl extract_lines.
    match goal with
    | |- context [extract_pages 0 ?n ?p [] ?m] =>
        pose proof (pages_raise before H e after 0 n [] m) as E;
        destruct (extract_pages 0 n p [] m) as [r log]
    end.
    simpl in E. subst r. reflexivity.
Qed.

(** X7 at a file whose second page raises. *)
Lemma X7_witness :
  fst (processar_pdf_para_streamlit (list row) inr (fun _ => inr [])
         (Opened ([PageText (Some (py "a"))]
                  ++ PageRaises (py "boom") :: [PageText (Some (py "b"))])))
  = (false, msg_extraction (py "boom")).
Proof.
  destruct (X7_extraction_error (list row) inr (fun _ => inr [])) as [_ H].
  apply H. repeat constructor.
Defined.

(** X8.  The log of the function (lines 10-113), whatever the file and the
    spreadsheet side do: it starts with the two opening messages (so it is
    never empty); when the function fails, the error it returns is the last
    message of the log; when it succeeds, the last message is the closing
    "Arquivo Excel gerado com sucesso!". *)
Theorem X8_log_invariants (DataFrame : Type)
        (pd_DataFrame : list row -> str + DataFrame)
        (to_excel : DataFrame -> str + str) pdf :
  let r := processar_pdf_para_streamlit DataFrame pd_DataFrame to_excel pdf in
  (exists rest, snd r = msg_start ++ rest)
  /\ (fst (fst r) = false -> exists front, snd r = front ++ [snd (fst r)])
  /\ (fst (fst r) = true -> exists front, snd r = front ++ [msg_success]).
Proof.
  unfold processar_pdf_para_streamlit. fold msg_start.
  destruct (extract_lines_log pdf msg_start) as [more E].
  destruct (extract_lines pdf msg_start) as [[e|lines] log]; cbn [snd] in E.
  - fold (msg_extraction e). cbn [fst snd].
    split; [exists (more ++ [msg_extraction e]);
            rewrite E, <- app_assoc; reflexivity|].
    split; [intros _; eexists; reflexivity | discriminate].
  - destruct lines as [|l ls].
    + fold msg_no_text. cbn [fst snd].
      split; [exists (more ++ [msg_no_text]);
              rewrite E, <- app_assoc; reflexivity|].
      split; [intros _; eexists; reflexivity | discriminate].
    + unfold process_text.
      destruct (finish_log DataFrame pd_DataFrame to_excel
                  (process_lines log (l :: ls))) as [[rest H1] [H2 H3]].
      split; [|split; assumption].
      rewrite H1. unfold process_lines. rewrite run_messages.
      cbn [info_messages]. rewrite E.
      eexists. rewrite <- !app_assoc. reflexivity.
Qed.

(** X9.  The whole function on a file whose pages do not raise
    (lines 10-113): the lines of all pages are read as one run, so a header
    on one page opens the section for the pages after it, and the
    spreadsheet is made from the rows of the candidate lines of that run.
    With at least one such row and a spreadsheet side that answers, the
    function succeeds with those bytes; with lines but no such row it fails
    with the no-data error. *)
Theorem X9_end_to_end (DataFrame : Type)
        (pd_DataFrame : list row -> str + DataFrame)
        (to_excel : DataFrame -> str + str) pages :
  Forall returns pages ->
  let lines := flat_map page_lines pages in
  let rows := rows_of (candidates false 0 lines) in
  (forall df excel_bytes,
      rows <> [] -> pd_DataFrame rows = inr df ->
      to_excel df = inr excel_bytes ->
      fst (processar_pdf_para_streamlit DataFrame pd_DataFrame to_excel
             (Opened pages))
      = (true, excel_bytes))
  /\ (rows = [] -> lines <> [] ->
      fst (processar_pdf_para_streamlit DataFrame pd_DataFrame to_excel
             (Opened pages))
      = (false, msg_no_data)).
Proof.
  intros H lines rows.
  assert (Hrun : forall log,
             extracted_data (process_lines log lines) = rows).
  { intro log. unfold process_lines. rewrite run_candidates. reflexivity. }
  unfold processar_pdf_para_streamlit. cbn [extract_lines].
  match goal with
  | |- context [extract_pages 0 ?n pages [] ?m] =>
      pose proof (pages_lines pages H 0 n [] m) as E;
      destruct (extract_pages 0 n pages [] m) as [r log]
  end.
  cbn [fst app] in E. fold lines in E. subst r.
  split.
  - intros df excel_bytes Hne Hdf Hx.
    destruct lines as [|l ls] eqn:El; [exfalso; apply Hne; reflexivity|].
    unfold process_text, finish. rewrite (Hrun log).
    destruct rows as [|r0 rs]; [congruence|].
    rewrite Hdf, Hx. reflexivity.
  - intros Hnil Hne.
    destruct lines as [|l ls] eqn:El; [congruence|].
    unfold process_text, finish. rewrite (Hrun log), Hnil. reflexivity.
Qed.

(** X9 at a file whose first page ends with the header and whose second
    page holds a data line. *)
Lemma X9_witness :
  fst (processar_pdf_para_streamlit (list row) inr
         (fun _ => inr (py "xlsx"))
         (Opened [PageText (Some (py "CLSF.CONTABIL DENOMINACAO / RUBRICA"));
                  PageText (Some (py "A B 1,00"))]))
  = (true, py "xlsx").
Proof.
  destruct (X9_end_to_end (list row) inr (fun _ => inr (py "xlsx"))
              [PageText (Some (py "CLSF.CONTABIL DENOMINACAO / RUBRICA"));
               PageText (Some (py "A B 1,00"))]) as [H _].
  - repeat constructor.
  - eapply H; [vm_compute; discriminate | reflexivity | reflexivity].
Defined.

(** X10.  Whether a line is a header line (line 52) does not depend on the
    blanks around it: the test on the trimmed line is the test on the line
    as it came. *)
Theorem X10_header_ignores_outer_blanks line :
  is_header (strip line) = is_header line.
Proof.
  unfold is_header.
  rewrite (contains_strip (py "CLSF.CONTABIL") "C"%char (py "LSF.CONTABIL")
             (py "CLSF.CONTABI") "L"%char line)
    by (vm_compute; reflexivity).
  rewrite (contains_strip (py "DENOMINACAO / RUBRICA") "D"%char
             (py "ENOMINACAO / RUBRICA") (py "DENOMINACAO / RUBRIC")
             "A"%char line)
    by (vm_compute; reflexivity).
  reflexivity.
Qed.

(** X11.  A line of blanks only, or an empty one (lines 50-58), is passed
    over before and inside the section: the line count moves and nothing
    else. *)
Theorem X11_blank_line_skipped st line :
  Forall blank line -> step st line = advance st.
Proof.
  intro H. unfold step. rewrite (strip_blank line H).
  change (is_header []) with false. cbv iota.
  change (is_noise []) with true. rewrite orb_true_r. reflexivity.
Qed.

(** X11 at a line of a space, a tab and a no-break space. *)
Lemma X11_witness :
  step (LoopState [] true [] 4) [" "%char; "009"%char; "160"%char]
  = LoopState [] true [] 5.
Proof.
  rewrite X11_blank_line_skipped; [reflexivity|].
  repeat constructor.
Defined.

(** X12.  The name of the download (line 155) for a name that ends in
    ".pdf" or ".PDF" and holds neither of them before that: the ending is
    replaced by "_convertido.xlsx" and the rest is kept. *)
Theorem X12_download_filename_pdf stem :
  contains (py ".pdf") stem = false -> contains (py ".PDF") stem = false ->
  download_filename (stem ++ py ".pdf") = stem ++ py "_convertido.xlsx"
  /\ download_filename (stem ++ py ".PDF") = stem ++ py "_convertido.xlsx".
Proof.
  intros Hl Hu. unfold download_filename.
  assert (Nl : forall c, ~ In c (py "pdf") <-> (c <> "p" /\ c <> "d" /\ c <> "f")%char)
    by (intro c; simpl; intuition congruence).
  assert (Nu : forall c, ~ In c (py "PDF") <-> (c <> "P" /\ c <> "D" /\ c <> "F")%char)
    by (intro c; simpl; intuition congruence).
  split.
  - change (stem ++ py ".pdf") with (stem ++ "."%char :: py "pdf").
    rewrite (replace_before (py ".pdf") _ "."%char (py "pdf") stem
               "."%char (py "pdf") eq_refl)
      by (try apply Nl; (repeat split; discriminate) || exact Hl).
    change (replace_str (py ".pdf") (py "_convertido.xlsx")
              ("."%char :: py "pdf"))
      with ("_"%char :: py "convertido.xlsx").
    rewrite (replace_before (py ".PDF") _ "."%char (py "PDF") stem
               "_"%char (py "convertido.xlsx") eq_refl)
      by (try apply Nu; (repeat split; discriminate) || exact Hu).
    reflexivity.
  - change (stem ++ py ".PDF") with (stem ++ "."%char :: py "PDF").
    rewrite (replace_before (py ".pdf") _ "."%char (py "pdf") stem
               "."%char (py "PDF") eq_refl)
      by (try apply Nl; (repeat split; discriminate) || exact Hl).
    change (replace_str (py ".pdf") (py "_convertido.xlsx")
              ("."%char :: py "PDF"))
      with ("."%char :: py "PDF").
    rewrite (replace_before (py ".PDF") _ "."%char (py "PDF") stem
               "."%char (py "PDF") eq_refl)
      by (try apply Nu; (repeat split; discriminate) || exact Hu).
    reflexivity.
Qed.

(** X12 at "folha.2024.pdf" and "folha.2024.PDF". *)
Lemma X12_witness :
  download_filename (py "folha.2024" ++ py ".pdf")
  = py "folha.2024_convertido.xlsx"
  /\ download_filename (py "folha.2024" ++ py ".PDF")
     = py "folha.2024_convertido.xlsx".
Proof.
  destruct (X12_download_filename_pdf (py "folha.2024")) as [H1 H2];
    try (vm_compute; reflexivity).
  rewrite H1, H2. split; vm_compute; reflexivity.
Defined.

(** X13.  A name that holds neither ".pdf" nor ".PDF" (line 155), such as
    one ending in ".Pdf", is the name of the download as it is: it gets no
    ".xlsx" ending. *)
Theorem X13_download_filename_unchanged name :
  contains (py ".pdf") name = false -> contains (py ".PDF") name = false ->
  download_filename name = name.
Proof.
  intros Hl Hu. unfold download_filename.
  rewrite (replace_absent_str (py ".pdf") _ name Hl).
  apply replace_absent_str. exact Hu.
Qed.

(** X13 at "folha.Pdf". *)
Lemma X13_witness : download_filename (py "folha.Pdf") = py "folha.Pdf".
Proof.
  apply X13_download_filename_unchanged; vm_compute; reflexivity.
Defined.

(** X14.  [strip] (lines 50 and 63): the text is the trimmed text with
    blanks, and only blanks, before and after it; the trimmed text neither
    starts nor ends with a blank; and trimming it again changes nothing. *)
Theorem X14_strip_spec s :
  (exists w1 w2,
      s = w1 ++ strip s ++ w2 /\ Forall blank w1 /\ Forall blank w2)
  /\ (forall c r, strip s = c :: r -> isspace c = false)
  /\ (forall p c, strip s = p ++ [c] -> isspace c = false)
  /\ strip (strip s) = strip s.
Proof.
  split; [apply strip_decompose|].
  split; [intros c r; apply strip_head|].
  split; [intros p c; apply strip_last | apply strip_idem].
Qed.

(** X15.  [split] at newlines (line 28): joining the lines with newlines
    gives the text back, no line holds a newline, and there is one line
    more than there are newlines. *)
Theorem X15_split_join s :
  join newline (split newline s) = s
  /\ Forall (Forall (fun c => c <> newline)) (split newline s)
  /\ length (split newline s)
     = S (length (filter (fun c => Ascii.eqb c newline) s)).
Proof.
  split; [apply join_split|].
  split; [apply split_no_sep | apply split_length].
Qed.

(** X16.  Every row the loop collects (lines 62-67): the classification is
    not empty and holds no blank; the description has no blank at either
    end and no newline. *)
Theorem X16_row_fields info lines :
  Forall
    (fun r =>
       classificacao r <> [] /\ solid (classificacao r)
       /\ strip (denominacao r) = denominacao r
       /\ Forall (fun x => x <> newline) (denominacao r))
    (extracted_data (process_lines info lines)).
Proof.
  unfold process_lines. rewrite run_candidates. apply rows_of_fields.
Qed.

(** X17.  How exact the parsed amount is (line 66): for a token of the
    amount shape, with or without leading zeros, whose digits read as a
    count of hundredths below 2^52, the number that the parsed binary64 value
    stands for, times 100 in exact arithmetic and rounded half to even to an
    integer ([Locale.hundredths]), is that count.  So the stored value lies
    within half a cent of the amount written, and writing it with two
    decimals shows the same cents.  Nothing is said here of the float product
    [v * 100], which rounds a second time ([float_product_rounds_twice]). *)
Theorem X17_amount_exact_to_the_cent w :
  amount_shape w ->
  (PyFloat.digits_value (filter isdecimal w) < 2 ^ 52)%Z ->
  exists v,
    parse_amount w = Some v
    /\ Locale.hundredths v
       = Some (false, PyFloat.digits_value (filter isdecimal w)).
Proof.
  intros A Hb.
  eexists. split; [apply parse_amount_shape; exact A|].
  apply hundredths_of_ratio. split; [|exact Hb].
  apply digits_value_nonneg.
  destruct A as [lead [gs [cents [E [_ [Hl [Hg [_ Hc]]]]]]]]. subst w.
  rewrite !filter_app. simpl.
  rewrite filter_dotted, !filter_digits by assumption.
  apply Forall_app. split; [exact Hl|].
  apply Forall_app. split; [apply all_digits_concat; exact Hg | exact Hc].
Qed.

(** X17 at "007.000,10": 700010 hundredths. *)
Lemma X17_witness :
  exists v,
    parse_amount (py "007.000,10") = Some v
    /\ Locale.hundredths v = Some (false, 700010%Z).
Proof.
  destruct (X17_amount_exact_to_the_cent (py "007.000,10")) as [v [P H]].
  - apply amount_shape_check. vm_compute. reflexivity.
  - vm_compute. reflexivity.
  - exists v. split; [exact P|]. rewrite H. vm_compute. reflexivity.
Defined.

End Extras.
